(** * SharedPtrManager: the handle registry of the Amplitude C bindings

    A shallow embedding of [src/amplitude_shared_ptr_manager.h] and
    [src/amplitude_shared_ptr_manager.cpp].  The registry is a
    [std::unordered_map<void*, SharedPtrEntry>]; every member function is a
    computation in a small state monad over the manager object.  The
    [std::shared_mutex] only serialises callers, so a sequential run of the
    member functions is what is modelled here. *)

From stdpp Require Import gmap strings list fin_maps.

(** ** Pointers, type tags and shared pointers *)

(** A raw pointer ([void*], [T*]) is its address. *)
Abbreviation address := N (only parsing).

Definition nullptr : address := 0%N.

(** [std::type_index(typeid(T))]: one comparable tag per static type; the
    tag is the type's name. *)
Abbreviation type_index := string (only parsing).

(** [std::shared_ptr<T>]: the stored pointer returned by [get()] and the
    control block that owns the object.  Two shared pointers to one object
    have the same [get]. *)
Record shared_ptr : Type := mk_shared_ptr
  { get : address;
    ctrl : N }.

#[global] Instance shared_ptr_eq_dec : EqDecision shared_ptr.
Proof. solve_decision. Defined.

(** [std::shared_ptr<T>(nullptr)], what [return nullptr;] builds in [Get]. *)
Definition null_shared_ptr : shared_ptr := {| get := nullptr; ctrl := 0%N |}.

(** [explicit operator bool]: [get() != nullptr]. *)
Definition operator_bool (p : shared_ptr) : bool :=
  negb (bool_decide (get p = nullptr)).

(** [std::static_pointer_cast<U>(p)]: same stored address, same control
    block. *)
Definition static_pointer_cast (p : shared_ptr) : shared_ptr :=
  {| get := get p; ctrl := ctrl p |}.

(** ** The registry *)

(** [struct SharedPtrEntry]; the constructor template records [typeid(T)]. *)
Record SharedPtrEntry : Type := mk_entry
  { ptr : shared_ptr;
    type : type_index }.

Definition SharedPtrEntry_ctor (T : type_index) (p : shared_ptr) : SharedPtrEntry :=
  {| ptr := static_pointer_cast p; type := T |}.

Record SharedPtrManager : Type := mk_manager
  { _storage : gmap address SharedPtrEntry }.

(** [SharedPtrManager() = default]: the state [Instance()] builds on first
    use. *)
Definition new_manager : SharedPtrManager := {| _storage := ∅ |}.

(** ** Member functions as state computations *)

Definition M (A : Type) : Type := SharedPtrManager → A * SharedPtrManager.

#[global] Instance M_ret : MRet M := λ A a s, (a, s).
#[global] Instance M_bind : MBind M := λ A B f m s, let '(a, s') := m s in f a s'.

(** The [std::unordered_map] calls the member functions make. *)
Definition find (k : address) : M (option SharedPtrEntry) :=
  λ s, (_storage s !! k, s).

Definition emplace (k : address) (e : SharedPtrEntry) : M unit :=
  λ s, (tt, match _storage s !! k with
            | Some _ => s
            | None => {| _storage := <[k := e]> (_storage s) |}
            end).

Definition erase (k : address) : M unit :=
  λ s, (tt, {| _storage := delete k (_storage s) |}).

Definition clear : M unit :=
  λ s, (tt, {| _storage := ∅ |}).

(** [_storage.size()] *)
Definition size_ : M nat :=
  λ s, (size (_storage s), s).

(** [it != _storage.end() && it->second.type == std::type_index(typeid(T))] *)
Definition found_with_type (T : type_index) (it : option SharedPtrEntry) : bool :=
  match it with
  | Some second => bool_decide (type second = T)
  | None => false
  end.

Definition Store (T : type_index) (p : shared_ptr) : M address :=
  if negb (operator_bool p) then mret nullptr
  else
    let raw_ptr := get p in
    it ← find raw_ptr;
    match it with
    | Some second =>
        if bool_decide (type second = T) then mret raw_ptr
        else mret nullptr
    | None =>
        _ ← emplace raw_ptr (SharedPtrEntry_ctor T p);
        mret raw_ptr
    end.

Definition Get (T : type_index) (raw_ptr : address) : M shared_ptr :=
  if bool_decide (raw_ptr = nullptr) then mret null_shared_ptr
  else
    it ← find raw_ptr;
    match it with
    | Some second =>
        if bool_decide (type second = T)
        then mret (static_pointer_cast (ptr second))
        else mret null_shared_ptr
    | None => mret null_shared_ptr
    end.

Definition Remove (T : type_index) (raw_ptr : address) : M bool :=
  if bool_decide (raw_ptr = nullptr) then mret false
  else
    it ← find raw_ptr;
    if found_with_type T it then
      _ ← erase raw_ptr;
      mret true
    else mret false.

Definition HasType (T : type_index) (raw_ptr : address) : M bool :=
  if bool_decide (raw_ptr = nullptr) then mret false
  else
    it ← find raw_ptr;
    mret (found_with_type T it).

Definition Contains (raw_ptr : address) : M bool :=
  if bool_decide (raw_ptr = nullptr) then mret false
  else
    it ← find raw_ptr;
    mret (bool_decide (is_Some it)).

Definition Clear : M unit := clear.

Definition GetStoredCount : M nat := size_.

(** ** Call sequences *)

(** One call of a member function on the singleton. *)
Inductive call : Type :=
  | CallStore (T : type_index) (p : shared_ptr)
  | CallGet (T : type_index) (raw_ptr : address)
  | CallRemove (T : type_index) (raw_ptr : address)
  | CallHasType (T : type_index) (raw_ptr : address)
  | CallContains (raw_ptr : address)
  | CallClear
  | CallGetStoredCount.

(** The manager after a call; the returned value is dropped. *)
Definition exec (c : call) (s : SharedPtrManager) : SharedPtrManager :=
  match c with
  | CallStore T p => (Store T p s).2
  | CallGet T raw_ptr => (Get T raw_ptr s).2
  | CallRemove T raw_ptr => (Remove T raw_ptr s).2
  | CallHasType T raw_ptr => (HasType T raw_ptr s).2
  | CallContains raw_ptr => (Contains raw_ptr s).2
  | CallClear => (Clear s).2
  | CallGetStoredCount => (GetStoredCount s).2
  end.

Fixpoint run (cs : list call) (s : SharedPtrManager) : SharedPtrManager :=
  match cs with
  | [] => s
  | c :: cs' => run cs' (exec c s)
  end.

(** The states the singleton can be in: those a call sequence produces from
    the freshly constructed manager. *)
Definition reachable (s : SharedPtrManager) : Prop :=
  ∃ cs, run cs new_manager = s.

(** Every key is the non-null address of the object its entry points to. *)
Definition keys_are_identities (s : SharedPtrManager) : Prop :=
  ∀ k e, _storage s !! k = Some e → k ≠ nullptr ∧ get (ptr e) = k.

Definition is_matching_Remove (T : type_index) (h : address) (c : call) : bool :=
  match c with
  | CallRemove U raw_ptr => bool_decide (U = T) && bool_decide (raw_ptr = h)
  | _ => false
  end.

Definition is_Clear (c : call) : bool :=
  match c with
  | CallClear => true
  | _ => false
  end.

Definition no_matching_Remove (T : type_index) (h : address) (cs : list call) : bool :=
  forallb (λ c, negb (is_matching_Remove T h c)) cs.

Definition no_Clear (cs : list call) : bool :=
  forallb (λ c, negb (is_Clear c)) cs.

(** ** Sample objects

    Two engine objects, a copy of each shared pointer, and the registry
    after storing them. *)

Definition bus_a : shared_ptr := {| get := 4096; ctrl := 1 |}.
Definition bus_a_copy : shared_ptr := {| get := 4096; ctrl := 1 |}.
Definition room_b : shared_ptr := {| get := 8192; ctrl := 2 |}.
Definition room_b_copy : shared_ptr := {| get := 8192; ctrl := 2 |}.
Definition with_bus_a : SharedPtrManager :=
  run [CallStore "Bus" bus_a] new_manager.
Definition with_bus_a_room_b : SharedPtrManager :=
  run [CallStore "Room" room_b] with_bus_a.

(** A call that only reads the registry. *)
Definition is_read_only (c : call) : bool :=
  match c with
  | CallGet _ _ | CallHasType _ _ | CallContains _ | CallGetStoredCount => true
  | CallStore _ _ | CallRemove _ _ | CallClear => false
  end.

(** ** The process around the registry

    The singleton of [amplitude_shared_ptr_manager.cpp], the boot flag of
    [amplitude_boot.cpp] and the C entry points that go through the
    registry.  Calls into the audio engine are recorded in [engine_calls];
    what the engine returns is an argument of the entry point that makes
    the call.  The entry points run one after another, and an engine method
    does not call back into them.  [engine_calls] holds the methods the
    entry points call by name; a destructor that runs because the registry
    dropped the last reference to an object is not recorded, since the
    registry does not know who else owns the object. *)

(** [am_bool], [AM_TRUE], [AM_FALSE] and [BOOL_TO_AM_BOOL]. *)
Abbreviation am_bool := N (only parsing).
Definition AM_TRUE : am_bool := 1%N.
Definition AM_FALSE : am_bool := 0%N.
Definition BOOL_TO_AM_BOOL (x : bool) : am_bool := if x then AM_TRUE else AM_FALSE.

(** The enumerators every platform has. *)
Inductive am_file_type : Type :=
  | am_file_type_unknown
  | am_file_type_custom
  | am_file_type_disk
  | am_file_type_memory
  | am_file_type_package_item.

Inductive am_filesystem_type : Type :=
  | am_filesystem_type_unknown
  | am_filesystem_type_custom
  | am_filesystem_type_disk
  | am_filesystem_type_package.

#[global] Instance am_filesystem_type_eq_dec : EqDecision am_filesystem_type.
Proof. solve_decision. Defined.

(** [am_file_handle] and [am_filesystem_handle]: the fields [type] and
    [handle] of each struct. *)
Record am_file_handle : Type := mk_file_handle
  { file_type : am_file_type;
    file_handle : address }.

Record am_filesystem_handle : Type := mk_filesystem_handle
  { filesystem_type : am_filesystem_type;
    filesystem_handle : address }.

(** The engine methods the modelled entry points call, with the object
    they are called on. *)
Inductive engine_call : Type :=
  | Codec_CreateDecoder (codec : address)
  | Codec_CreateEncoder (codec : address)
  | Decoder_Close (this : address)
  | Decoder_Seek (this : address) (offset : N)
  | Encoder_Close (this : address)
  | File_Close (this : address)
  | FileSystem_OpenFile (this : address) (path : address) (mode : N)
  | Environment_GetZone (state : address)
  | Environment_SetZone (state : address) (zone : shared_ptr).

(** The statics: [g_initialized], [SharedPtrManager::_init_flag] and
    [SharedPtrManager::_instance]. *)
Record Process : Type := mk_process
  { g_initialized : bool;
    _init_flag : bool;
    _instance : option SharedPtrManager;
    engine_calls : list engine_call }.

(** The statics as their initialisers leave them. *)
Definition process_start : Process :=
  {| g_initialized := false; _init_flag := false; _instance := None;
     engine_calls := [] |}.

(** A computation on the process; [None] is a dereference of a null
    [_instance]. *)
Definition P (A : Type) : Type := Process → option (A * Process).

#[global] Instance P_ret : MRet P := λ A a g, Some (a, g).
#[global] Instance P_bind : MBind P := λ A B f m g,
  match m g with
  | Some (a, g') => f a g'
  | None => None
  end.

(** A call into the engine that returns [result]. *)
Definition engine {A : Type} (c : engine_call) (result : A) : P A :=
  λ g, Some (result,
             {| g_initialized := g_initialized g; _init_flag := _init_flag g;
                _instance := _instance g;
                engine_calls := engine_calls g ++ [c] |}).

(** [SharedPtrManager::Instance()]: [std::call_once] runs the constructor
    the first time, then [*_instance] is returned. *)
Definition Instance : P SharedPtrManager :=
  λ g,
    let g' := if _init_flag g then g
              else {| g_initialized := g_initialized g; _init_flag := true;
                      _instance := Some new_manager;
                      engine_calls := engine_calls g |} in
    match _instance g' with
    | Some s => Some (s, g')
    | None => None
    end.

(** The object [_instance] owns after a member function has run on the
    reference [Instance()] returned. *)
Definition assign_Instance (s : SharedPtrManager) : P unit :=
  λ g, Some (tt, {| g_initialized := g_initialized g; _init_flag := _init_flag g;
                    _instance := Some s; engine_calls := engine_calls g |}).

(** [SharedPtrManager::Instance().f(...)] *)
Definition on_Instance {A : Type} (f : M A) : P A :=
  s ← Instance;
  let '(a, s') := f s in
  _ ← assign_Instance s';
  mret a.

(** The helper macros of [amplitude_internals.h]. *)
Definition STORE_SHARED_PTR (type : type_index) (p : shared_ptr) : P address :=
  on_Instance (Store type p).

Definition GET_SHARED_PTR (type : type_index) (handle : address) : P shared_ptr :=
  on_Instance (Get type handle).

Definition REMOVE_SHARED_PTR (type : type_index) (handle : address) : P bool :=
  on_Instance (Remove type handle).

(** [g_initialized.compare_exchange_strong(expected, desired)] and
    [g_initialized.load()]. *)
Definition compare_exchange_strong (expected desired : bool) : P bool :=
  λ g, if bool_decide (g_initialized g = expected)
       then Some (true, {| g_initialized := desired; _init_flag := _init_flag g;
                           _instance := _instance g;
                           engine_calls := engine_calls g |})
       else Some (false, g).

Definition load : P bool := λ g, Some (g_initialized g, g).

(** *** [amplitude_boot.cpp] *)

Definition am_boot : P unit :=
  swapped ← compare_exchange_strong false true;
  if negb swapped then mret tt
  else
    _ ← Instance;
    mret tt.

Definition am_shutdown : P unit :=
  swapped ← compare_exchange_strong true false;
  if negb swapped then mret tt
  else on_Instance Clear.

Definition am_is_initialized : P am_bool :=
  b ← load;
  mret (BOOL_TO_AM_BOOL b).

(** *** [amplitude_codec.cpp]: decoder and encoder handles *)

Definition am_codec_decoder_create_from_codec
    (codec : address) (CreateDecoder : shared_ptr) : P address :=
  if bool_decide (codec = nullptr) then mret nullptr
  else
    decoder ← engine (Codec_CreateDecoder codec) CreateDecoder;
    if negb (operator_bool decoder) then mret nullptr
    else STORE_SHARED_PTR "Codec::Decoder" decoder.

Definition am_codec_decoder_destroy (handle : address) : P unit :=
  if bool_decide (handle = nullptr) then mret tt
  else
    _ ← REMOVE_SHARED_PTR "Codec::Decoder" handle;
    mret tt.

Definition am_codec_decoder_close (handle : address) (Close : bool) : P am_bool :=
  if bool_decide (handle = nullptr) then mret AM_FALSE
  else
    decoder ← GET_SHARED_PTR "Codec::Decoder" handle;
    if negb (operator_bool decoder) then mret AM_FALSE
    else
      r ← engine (Decoder_Close (get decoder)) Close;
      mret (BOOL_TO_AM_BOOL r).

Definition am_codec_decoder_seek (handle : address) (offset : N) (Seek : bool) : P am_bool :=
  if bool_decide (handle = nullptr) then mret AM_FALSE
  else
    decoder ← GET_SHARED_PTR "Codec::Decoder" handle;
    if negb (operator_bool decoder) then mret AM_FALSE
    else
      r ← engine (Decoder_Seek (get decoder) offset) Seek;
      mret (BOOL_TO_AM_BOOL r).

Definition am_codec_encoder_create_from_codec
    (codec : address) (CreateEncoder : shared_ptr) : P address :=
  if bool_decide (codec = nullptr) then mret nullptr
  else
    encoder ← engine (Codec_CreateEncoder codec) CreateEncoder;
    if negb (operator_bool encoder) then mret nullptr
    else STORE_SHARED_PTR "Codec::Encoder" encoder.

Definition am_codec_encoder_destroy (handle : address) : P unit :=
  if bool_decide (handle = nullptr) then mret tt
  else
    _ ← REMOVE_SHARED_PTR "Codec::Encoder" handle;
    mret tt.

Definition am_codec_encoder_close (handle : address) (Close : bool) : P am_bool :=
  if bool_decide (handle = nullptr) then mret AM_FALSE
  else
    encoder ← GET_SHARED_PTR "Codec::Encoder" handle;
    if negb (operator_bool encoder) then mret AM_FALSE
    else
      r ← engine (Encoder_Close (get encoder)) Close;
      mret (BOOL_TO_AM_BOOL r).

(** *** [amplitude_filesystem.cpp]: file handles *)

Definition am_file_close (file : am_file_handle) : P unit :=
  file_ptr ← GET_SHARED_PTR "File" (file_handle file);
  if operator_bool file_ptr then
    _ ← engine (File_Close (get file_ptr)) tt;
    _ ← REMOVE_SHARED_PTR "File" (file_handle file);
    mret tt
  else mret tt.

Definition am_filesystem_open_file
    (filesystem : am_filesystem_handle) (path : address) (mode : N)
    (OpenFile : shared_ptr) : P am_file_handle :=
  file ← engine (FileSystem_OpenFile (filesystem_handle filesystem) path mode)
                OpenFile;
  if operator_bool file then
    raw_ptr ← STORE_SHARED_PTR "File" file;
    mret {| file_type :=
              if bool_decide (filesystem_type filesystem = am_filesystem_type_custom)
              then am_file_type_custom
              else am_file_type_disk;
            file_handle := raw_ptr |}
  else mret {| file_type := am_file_type_unknown; file_handle := nullptr |}.

(** *** [amplitude_environment.cpp]: zone handles *)

Definition am_environment_set_zone (environment zone : address) : P unit :=
  zone_ptr ← GET_SHARED_PTR "Zone" zone;
  if operator_bool zone_ptr then
    _ ← engine (Environment_SetZone environment zone_ptr) tt;
    mret tt
  else mret tt.

Definition am_environment_get_zone (environment : address) (GetZone : shared_ptr)
    : P address :=
  zone ← engine (Environment_GetZone environment) GetZone;
  if operator_bool zone then STORE_SHARED_PTR "Zone" zone
  else mret nullptr.

(** *** Sequences of entry-point calls *)

Inductive api_call : Type :=
  | Api_boot
  | Api_shutdown
  | Api_is_initialized
  | Api_decoder_create_from_codec (codec : address) (CreateDecoder : shared_ptr)
  | Api_decoder_destroy (handle : address)
  | Api_decoder_close (handle : address) (Close : bool)
  | Api_decoder_seek (handle : address) (offset : N) (Seek : bool)
  | Api_encoder_create_from_codec (codec : address) (CreateEncoder : shared_ptr)
  | Api_encoder_destroy (handle : address)
  | Api_encoder_close (handle : address) (Close : bool)
  | Api_file_close (file : am_file_handle)
  | Api_filesystem_open_file (filesystem : am_filesystem_handle) (path : address)
      (mode : N) (OpenFile : shared_ptr)
  | Api_environment_set_zone (environment zone : address)
  | Api_environment_get_zone (environment : address) (GetZone : shared_ptr).

(** The process after a call; the returned value is dropped. *)
Definition after {A : Type} (m : P A) : Process → option Process :=
  λ g, snd <$> m g.

Definition exec_api (c : api_call) : Process → option Process :=
  match c with
  | Api_boot => after am_boot
  | Api_shutdown => after am_shutdown
  | Api_is_initialized => after am_is_initialized
  | Api_decoder_create_from_codec codec r =>
      after (am_codec_decoder_create_from_codec codec r)
  | Api_decoder_destroy handle => after (am_codec_decoder_destroy handle)
  | Api_decoder_close handle r => after (am_codec_decoder_close handle r)
  | Api_decoder_seek handle offset r => after (am_codec_decoder_seek handle offset r)
  | Api_encoder_create_from_codec codec r =>
      after (am_codec_encoder_create_from_codec codec r)
  | Api_encoder_destroy handle => after (am_codec_encoder_destroy handle)
  | Api_encoder_close handle r => after (am_codec_encoder_close handle r)
  | Api_file_close file => after (am_file_close file)
  | Api_filesystem_open_file filesystem path mode r =>
      after (am_filesystem_open_file filesystem path mode r)
  | Api_environment_set_zone environment zone =>
      after (am_environment_set_zone environment zone)
  | Api_environment_get_zone environment r =>
      after (am_environment_get_zone environment r)
  end.

Fixpoint run_api (cs : list api_call) (g : Process) : option Process :=
  match cs with
  | [] => Some g
  | c :: cs' =>
      match exec_api c g with
      | Some g' => run_api cs' g'
      | None => None
      end
  end.

(** The process states a sequence of entry-point calls produces from the
    static initialisers. *)
Definition reachable_process (g : Process) : Prop :=
  ∃ cs, run_api cs process_start = Some g.

(** The registry [Instance()] refers to in a process state: the object
    [_instance] owns once [_init_flag] is set, and the one the first access
    constructs before that. *)
Definition registry_of (g : Process) : SharedPtrManager :=
  if _init_flag g then default new_manager (_instance g) else new_manager.

(** The process once [Instance()] has been reached and the registry is [s]. *)
Definition with_registry (s : SharedPtrManager) (g : Process) : Process :=
  {| g_initialized := g_initialized g; _init_flag := true;
     _instance := Some s; engine_calls := engine_calls g |}.

(** The process after one more recorded engine call. *)
Definition with_engine_call (c : engine_call) (g : Process) : Process :=
  {| g_initialized := g_initialized g; _init_flag := _init_flag g;
     _instance := _instance g; engine_calls := engine_calls g ++ [c] |}.

(** What every reachable process state satisfies: booting has reached
    [Instance()], and once [_init_flag] is set [_instance] owns a registry
    that calls of its member functions produce. *)
Definition process_ok (g : Process) : Prop :=
  (g_initialized g = true → _init_flag g = true) ∧
  (_init_flag g = true → ∃ s, _instance g = Some s ∧ reachable s).

(** A computation that returns, and keeps [process_ok]. *)
Definition safe {A : Type} (m : P A) : Prop :=
  ∀ g, process_ok g → ∃ a g', m g = Some (a, g') ∧ process_ok g'.

(** ** Sample engine objects and processes *)

Definition decoder_d : shared_ptr := {| get := 12288; ctrl := 3 |}.
Definition encoder_e : shared_ptr := {| get := 16384; ctrl := 4 |}.
Definition file_f : shared_ptr := {| get := 20480; ctrl := 5 |}.
Definition zone_z : shared_ptr := {| get := 24576; ctrl := 6 |}.

(** The process after a sequence of entry-point calls from process start. *)
Definition process_after (cs : list api_call) : Process :=
  default process_start (run_api cs process_start).

(** * Proofs *)

(** ** What each member function computes *)

(** Unfolds a member function down to the map operations it performs. *)
Ltac unfold_member :=
  unfold Store, Get, Remove, HasType, Contains, Clear, GetStoredCount,
    find, emplace, erase, clear, size_, operator_bool,
    mbind, mret, M_bind, M_ret.

Lemma Store_unfold T p s :
  Store T p s =
  if bool_decide (get p = nullptr) then (nullptr, s)
  else match _storage s !! get p with
       | Some second =>
           if bool_decide (type second = T) then (get p, s) else (nullptr, s)
       | None =>
           (get p, {| _storage := <[get p := SharedPtrEntry_ctor T p]> (_storage s) |})
       end.
Proof.
  unfold_member. case_bool_decide; simpl; [done|].
  destruct (_storage s !! get p) as [second|] eqn:Hit; simpl.
  - by case_bool_decide.
  - by rewrite Hit.
Qed.

Lemma Get_unfold T h s :
  Get T h s =
  if bool_decide (h = nullptr) then (null_shared_ptr, s)
  else match _storage s !! h with
       | Some second =>
           if bool_decide (type second = T)
           then (static_pointer_cast (ptr second), s)
           else (null_shared_ptr, s)
       | None => (null_shared_ptr, s)
       end.
Proof.
  unfold_member. case_bool_decide; simpl; [done|].
  destruct (_storage s !! h) as [second|]; simpl; [|done].
  by case_bool_decide.
Qed.

Lemma Remove_unfold T h s :
  Remove T h s =
  if bool_decide (h = nullptr) then (false, s)
  else if found_with_type T (_storage s !! h)
       then (true, {| _storage := delete h (_storage s) |})
       else (false, s).
Proof.
  unfold_member. case_bool_decide; simpl; [done|].
  by destruct (found_with_type T (_storage s !! h)).
Qed.

Lemma HasType_unfold T h s :
  HasType T h s =
  (if bool_decide (h = nullptr) then false
   else found_with_type T (_storage s !! h), s).
Proof. unfold_member. by case_bool_decide. Qed.

Lemma Contains_unfold h s :
  Contains h s =
  (if bool_decide (h = nullptr) then false
   else bool_decide (is_Some (_storage s !! h)), s).
Proof. unfold_member. by case_bool_decide. Qed.

Lemma found_with_type_true T it :
  found_with_type T it = true ↔ ∃ e, it = Some e ∧ type e = T.
Proof.
  destruct it as [second|]; simpl.
  - rewrite bool_decide_eq_true. split; [eauto|]. by intros (e & [= <-] & ?).
  - split; [done|]. by intros (e & ? & ?).
Qed.

(** ** The registry invariant *)

Lemma new_manager_keys : keys_are_identities new_manager.
Proof. intros k e. simpl. by rewrite lookup_empty. Qed.

Lemma Store_keys T p s :
  keys_are_identities s → keys_are_identities (Store T p s).2.
Proof.
  intros Hs. rewrite Store_unfold.
  case_bool_decide as Hnull; [done|].
  destruct (_storage s !! get p) as [second|] eqn:Hit.
  - by case_bool_decide.
  - intros k e. cbn [snd _storage]. rewrite lookup_insert.
    case_decide as Hk; [|by apply Hs].
    intros [= <-]. by subst k.
Qed.

Lemma Remove_keys T h s :
  keys_are_identities s → keys_are_identities (Remove T h s).2.
Proof.
  intros Hs. rewrite Remove_unfold.
  case_bool_decide; [done|].
  destruct (found_with_type T (_storage s !! h)); [|done].
  intros k e. cbn [snd _storage]. rewrite lookup_delete.
  case_decide; [done|]. apply Hs.
Qed.

Lemma Get_state T h s : (Get T h s).2 = s.
Proof.
  rewrite Get_unfold. case_bool_decide; [done|].
  destruct (_storage s !! h); [|done]. by case_bool_decide.
Qed.

Lemma HasType_state T h s : (HasType T h s).2 = s.
Proof. by rewrite HasType_unfold. Qed.

Lemma Contains_state h s : (Contains h s).2 = s.
Proof. by rewrite Contains_unfold. Qed.

Lemma exec_keys c s : keys_are_identities s → keys_are_identities (exec c s).
Proof.
  intros Hs. destruct c; simpl.
  - by apply Store_keys.
  - by rewrite Get_state.
  - by apply Remove_keys.
  - by rewrite HasType_state.
  - by rewrite Contains_state.
  - apply new_manager_keys.
  - done.
Qed.

Lemma run_keys cs s : keys_are_identities s → keys_are_identities (run cs s).
Proof.
  revert s. induction cs as [|c cs IH]; intros s Hs; simpl; [done|].
  apply IH. by apply exec_keys.
Qed.

Lemma reachable_keys s : reachable s → keys_are_identities s.
Proof. intros [cs <-]. apply run_keys, new_manager_keys. Qed.

Lemma run_app cs1 cs2 s : run (cs1 ++ cs2) s = run cs2 (run cs1 s).
Proof.
  revert s. induction cs1 as [|c cs1 IH]; intros s; simpl; [done|]. apply IH.
Qed.

Lemma reachable_run cs s : reachable s → reachable (run cs s).
Proof. intros [cs0 <-]. exists (cs0 ++ cs). apply run_app. Qed.

(** A successful [Store] leaves the handle mapped to an entry that carries
    the caller's type tag and points to the caller's object. *)
Lemma Store_success s T p h s' :
  keys_are_identities s →
  Store T p s = (h, s') →
  h ≠ nullptr →
  h = get p ∧ ∃ e, _storage s' !! h = Some e ∧ type e = T ∧ get (ptr e) = h.
Proof.
  intros Hs HStore Hh. rewrite Store_unfold in HStore.
  case_bool_decide as Hnull; [by simplify_eq|].
  destruct (_storage s !! get p) as [second|] eqn:Hit.
  - case_bool_decide as Htype; simplify_eq.
    split; [done|]. exists second. split_and!; [done..|]. by apply Hs.
  - simplify_eq. split; [done|]. exists (SharedPtrEntry_ctor T p).
    cbn [_storage]. by rewrite lookup_insert_eq.
Qed.

(** [Get] on a handle mapped under the requested type hands out the stored
    pointer and leaves the manager as it was. *)
Lemma Get_mapped s T h e :
  h ≠ nullptr →
  _storage s !! h = Some e →
  type e = T →
  Get T h s = (static_pointer_cast (ptr e), s).
Proof.
  intros Hh He HT. rewrite Get_unfold, He.
  rewrite bool_decide_eq_false_2 by done. by rewrite bool_decide_eq_true_2.
Qed.

(** ** Store and Get *)

Lemma reachable_with_bus_a : reachable with_bus_a.
Proof. by exists [CallStore "Bus" bus_a]. Defined.

(** C1. In a state the registry can reach, when [Store<T>(p)] succeeds with
    handle [h] (a non-null handle, which already excludes a null [p]), the
    [Get<T>(h)] that follows does not change the registry and returns the
    shared pointer of the entry [h] is mapped to: a non-null pointer to the
    address of [p]'s object.  When the address was not mapped before the
    [Store], that pointer is [p] itself, control block included; when it was
    mapped, it is the pointer stored first, which owns the same object. *)
Theorem Store_Get_roundtrip s T p h s' :
  reachable s →
  Store T p s = (h, s') →
  h ≠ nullptr →
  ∃ r, Get T h s' = (r, s') ∧ get r = get p ∧ operator_bool r = true ∧
       (∃ e, _storage s' !! h = Some e ∧ type e = T ∧
             r = static_pointer_cast (ptr e)) ∧
       (_storage s !! get p = None → r = p) ∧
       (∀ e0, _storage s !! get p = Some e0 → r = static_pointer_cast (ptr e0)).
Proof.
  intros Hs HStore Hh. rewrite Store_unfold in HStore.
  case_bool_decide as Hnull; [by simplify_eq|].
  assert (Hlive : ∀ q, get q = get p → operator_bool (static_pointer_cast q) = true).
  { intros q Hq. unfold operator_bool. cbn [static_pointer_cast get].
    by rewrite Hq, bool_decide_eq_false_2. }
  destruct (_storage s !! get p) as [second|] eqn:Hit.
  - case_bool_decide as Htype; injection HStore as <- <-; [|done].
    destruct (reachable_keys s Hs _ _ Hit) as [_ Hget].
    exists (static_pointer_cast (ptr second)). split_and!.
    + by apply Get_mapped.
    + done.
    + by apply Hlive.
    + by exists second.
    + done.
    + by intros e0 [= <-].
  - injection HStore as <- <-.
    assert (Hnew : _storage
                     {| _storage := <[get p := SharedPtrEntry_ctor T p]> (_storage s) |}
                     !! get p = Some (SharedPtrEntry_ctor T p))
      by (cbn [_storage]; by rewrite lookup_insert_eq).
    exists (static_pointer_cast (ptr (SharedPtrEntry_ctor T p))). split_and!.
    + by apply Get_mapped.
    + done.
    + by apply Hlive.
    + by exists (SharedPtrEntry_ctor T p).
    + intros _. by destruct p.
    + done.
Qed.

Lemma Store_Get_roundtrip_witness :
  reachable with_bus_a ∧
  Store "Room" room_b with_bus_a = (8192%N, with_bus_a_room_b) ∧
  8192%N ≠ nullptr ∧
  Get "Room" 8192%N with_bus_a_room_b = (room_b, with_bus_a_room_b) ∧
  ∃ r, Get "Room" 8192%N with_bus_a_room_b = (r, with_bus_a_room_b) ∧
       get r = get room_b ∧ operator_bool r = true ∧
       (∃ e, _storage with_bus_a_room_b !! 8192%N = Some e ∧ type e = "Room" ∧
             r = static_pointer_cast (ptr e)) ∧
       (_storage with_bus_a !! get room_b = None → r = room_b) ∧
       (∀ e0, _storage with_bus_a !! get room_b = Some e0 →
              r = static_pointer_cast (ptr e0)).
Proof.
  assert (H1 : reachable with_bus_a) by apply reachable_with_bus_a.
  assert (H2 : Store "Room" room_b with_bus_a = (8192%N, with_bus_a_room_b))
    by reflexivity.
  assert (H3 : 8192%N ≠ nullptr) by (unfold nullptr; lia).
  split_and!; [done..|reflexivity|].
  exact (Store_Get_roundtrip _ _ _ _ _ H1 H2 H3).
Defined.

(** C2. In a reachable state where handle [h] is mapped to an entry stored
    under type tag [T]: for every tag [U] other than [T], [Get<U>(h)]
    returns the null shared pointer and [HasType<U>(h)] returns false;
    [Get<T>(h)] returns the stored pointer, which is non-null and points to
    [h], and [HasType<T>(h)] returns true.  None of the four calls changes
    the registry. *)
Theorem lookup_type_safety s h e T :
  reachable s →
  _storage s !! h = Some e →
  type e = T →
  (∀ U, U ≠ T →
     Get U h s = (null_shared_ptr, s) ∧ HasType U h s = (false, s)) ∧
  Get T h s = (static_pointer_cast (ptr e), s) ∧
  get (static_pointer_cast (ptr e)) = h ∧
  operator_bool (static_pointer_cast (ptr e)) = true ∧
  HasType T h s = (true, s).
Proof.
  intros Hs He HT.
  destruct (reachable_keys s Hs h e He) as [Hh Hget].
  split_and!.
  - intros U HU. rewrite Get_unfold, HasType_unfold, He. cbn [found_with_type].
    rewrite (bool_decide_eq_false_2 (h = nullptr)) by done.
    rewrite (bool_decide_eq_false_2 (type e = U)) by congruence. done.
  - by apply Get_mapped.
  - done.
  - unfold operator_bool. cbn [static_pointer_cast get].
    by rewrite Hget, bool_decide_eq_false_2.
  - rewrite HasType_unfold, He. cbn [found_with_type].
    rewrite bool_decide_eq_false_2 by done. by rewrite bool_decide_eq_true_2.
Qed.

Lemma lookup_type_safety_witness :
  reachable with_bus_a ∧
  _storage with_bus_a !! 4096%N = Some (SharedPtrEntry_ctor "Bus" bus_a) ∧
  type (SharedPtrEntry_ctor "Bus" bus_a) = "Bus" ∧
  Get "Room" 4096%N with_bus_a = (null_shared_ptr, with_bus_a) ∧
  HasType "Room" 4096%N with_bus_a = (false, with_bus_a) ∧
  Get "Bus" 4096%N with_bus_a = (bus_a, with_bus_a) ∧
  HasType "Bus" 4096%N with_bus_a = (true, with_bus_a).
Proof.
  assert (H1 : reachable with_bus_a) by apply reachable_with_bus_a.
  assert (H2 : _storage with_bus_a !! 4096%N
               = Some (SharedPtrEntry_ctor "Bus" bus_a)) by reflexivity.
  assert (H3 : type (SharedPtrEntry_ctor "Bus" bus_a) = "Bus") by reflexivity.
  destruct (lookup_type_safety _ _ _ _ H1 H2 H3) as (Hother & HGet & _ & _ & HHas).
  destruct (Hother "Room") as [HGetU HHasU]; [done|].
  by split_and!.
Defined.

(** C3. Two [Store<T>] calls in a row with shared pointers to one non-null
    object return the same handle, and the second call leaves the registry,
    hence its entry count, exactly as the first call left it.  When the
    object was not mapped before the first call, that handle is the object's
    address and the count after both calls is one more than before them. *)
Theorem Store_idempotent s T p1 p2 h1 s1 h2 s2 :
  operator_bool p1 = true →
  get p2 = get p1 →
  Store T p1 s = (h1, s1) →
  Store T p2 s1 = (h2, s2) →
  h1 = h2 ∧ s2 = s1 ∧
  (GetStoredCount s2).1 = (GetStoredCount s1).1 ∧
  (_storage s !! get p1 = None →
     h1 = get p1 ∧ (GetStoredCount s2).1 = S (GetStoredCount s).1).
Proof.
  intros Hp Heq H1 H2. rewrite Store_unfold in H1, H2. rewrite Heq in H2.
  unfold operator_bool in Hp. apply negb_true_iff in Hp.
  rewrite Hp in H1, H2.
  destruct (_storage s !! get p1) as [second|] eqn:Hit.
  - case_bool_decide as Htype; simplify_eq; rewrite Hit in H2.
    + rewrite bool_decide_eq_true_2 in H2 by done. by simplify_eq.
    + rewrite bool_decide_eq_false_2 in H2 by done. by simplify_eq.
  - simplify_eq. cbn [_storage] in H2. rewrite lookup_insert_eq in H2.
    cbn [SharedPtrEntry_ctor type] in H2.
    rewrite bool_decide_eq_true_2 in H2 by done. simplify_eq.
    split_and!; [done..|]. intros _. split; [done|].
    unfold GetStoredCount, size_. cbn [fst _storage].
    by apply map_size_insert_None.
Qed.

Lemma Store_idempotent_witness :
  operator_bool room_b = true ∧
  get room_b_copy = get room_b ∧
  Store "Room" room_b with_bus_a = (8192%N, with_bus_a_room_b) ∧
  Store "Room" room_b_copy with_bus_a_room_b = (8192%N, with_bus_a_room_b) ∧
  (GetStoredCount with_bus_a_room_b).1 = 2 ∧
  (_storage with_bus_a !! get room_b = None →
     8192%N = get room_b ∧
     (GetStoredCount with_bus_a_room_b).1 = S (GetStoredCount with_bus_a).1).
Proof.
  assert (H1 : operator_bool room_b = true) by reflexivity.
  assert (H2 : get room_b_copy = get room_b) by reflexivity.
  assert (H3 : Store "Room" room_b with_bus_a = (8192%N, with_bus_a_room_b))
    by reflexivity.
  assert (H4 : Store "Room" room_b_copy with_bus_a_room_b
               = (8192%N, with_bus_a_room_b)) by reflexivity.
  split_and!; [done..|].
  apply (Store_idempotent _ _ _ _ _ _ _ _ H1 H2 H3 H4).
Defined.

(** C4. When the object [p] points to is already mapped under tag [T], a
    [Store<U>(p)] with any other tag [U] returns the null handle and leaves
    the registry unchanged, so the entry keeps its tag and its pointer. *)
Theorem Store_type_conflict s T U p e :
  _storage s !! get p = Some e →
  type e = T →
  U ≠ T →
  Store U p s = (nullptr, s) ∧ _storage (Store U p s).2 !! get p = Some e.
Proof.
  intros He HT HU. assert (Store U p s = (nullptr, s)) as ->; [|done].
  rewrite Store_unfold, He. case_bool_decide; [done|].
  by rewrite bool_decide_eq_false_2 by congruence.
Qed.

Lemma Store_type_conflict_witness :
  _storage with_bus_a !! get bus_a_copy = Some (SharedPtrEntry_ctor "Bus" bus_a) ∧
  type (SharedPtrEntry_ctor "Bus" bus_a) = "Bus" ∧
  "Room" ≠ "Bus" ∧
  Store "Room" bus_a_copy with_bus_a = (nullptr, with_bus_a) ∧
  _storage (Store "Room" bus_a_copy with_bus_a).2 !! get bus_a_copy
    = Some (SharedPtrEntry_ctor "Bus" bus_a).
Proof.
  assert (H1 : _storage with_bus_a !! get bus_a_copy
               = Some (SharedPtrEntry_ctor "Bus" bus_a)) by reflexivity.
  assert (H2 : type (SharedPtrEntry_ctor "Bus" bus_a) = "Bus") by reflexivity.
  assert (H3 : "Room" ≠ "Bus") by done.
  split_and!; [done..| |];
    apply (Store_type_conflict with_bus_a "Bus" "Room" bus_a_copy _ H1 H2 H3).
Defined.

(** ** Remove and Clear *)

(** C5. In a reachable state, [Remove<T>(h)] returns true exactly when [h]
    is a key whose entry has tag [T].  When it returns true the key is gone
    from the map, and a following [Get<T>(h)], [HasType<T>(h)] and second
    [Remove<T>(h)] return null, false and false.  When it returns false the
    registry is unchanged. *)
Theorem Remove_spec s T h :
  reachable s →
  ((Remove T h s).1 = true ↔ ∃ e, _storage s !! h = Some e ∧ type e = T) ∧
  ((Remove T h s).1 = true →
     let s' := (Remove T h s).2 in
     _storage s' !! h = None ∧
     Get T h s' = (null_shared_ptr, s') ∧
     HasType T h s' = (false, s') ∧
     Remove T h s' = (false, s')) ∧
  ((Remove T h s).1 = false → (Remove T h s).2 = s).
Proof.
  intros Hs. rewrite Remove_unfold.
  case_bool_decide as Hnull.
  - split_and!; [|done..]. split; [done|].
    intros (e & He & _). by destruct (reachable_keys s Hs h e He).
  - destruct (found_with_type T (_storage s !! h)) eqn:Hfound.
    + split_and!; [|intros _|done].
      * split; [|done]. intros _. by apply found_with_type_true.
      * cbn [snd]. rewrite Get_unfold, HasType_unfold, Remove_unfold.
        cbn [_storage]. rewrite lookup_delete_eq.
        rewrite bool_decide_eq_false_2 by done. done.
    + split_and!; [|done..]. split; [done|].
      intros He. apply found_with_type_true in He. congruence.
Qed.

Lemma Remove_spec_witness :
  reachable with_bus_a_room_b ∧
  (Remove "Room" 8192%N with_bus_a_room_b).1 = true ∧
  (Remove "Room" 8192%N with_bus_a_room_b).2 = with_bus_a ∧
  Get "Room" 8192%N with_bus_a = (null_shared_ptr, with_bus_a) ∧
  HasType "Room" 8192%N with_bus_a = (false, with_bus_a) ∧
  Remove "Room" 8192%N with_bus_a = (false, with_bus_a).
Proof.
  assert (H1 : reachable with_bus_a_room_b)
    by (by exists [CallStore "Bus" bus_a; CallStore "Room" room_b]).
  assert (H2 : (Remove "Room" 8192%N with_bus_a_room_b).1 = true) by reflexivity.
  assert (H3 : (Remove "Room" 8192%N with_bus_a_room_b).2 = with_bus_a)
    by reflexivity.
  destruct (Remove_spec with_bus_a_room_b "Room" 8192%N H1) as (_ & Hgone & _).
  destruct (Hgone H2) as (_ & HGet & HHas & HRem).
  rewrite H3 in HGet, HHas, HRem.
  by split_and!.
Defined.

(** C6. After any sequence of calls, [Clear] leaves a registry whose
    [GetStoredCount] is 0 and in which every handle, so every handle mapped
    before, is not found: [Get] returns null and [HasType], [Contains] and
    [Remove] return false.  A second [Clear] returns and leaves that empty
    registry as it is. *)
Theorem Clear_empties cs :
  let s' := (Clear (run cs new_manager)).2 in
  (GetStoredCount s').1 = 0 ∧
  (∀ T h,
     Get T h s' = (null_shared_ptr, s') ∧
     HasType T h s' = (false, s') ∧
     Contains h s' = (false, s') ∧
     Remove T h s' = (false, s')) ∧
  Clear s' = (tt, s') ∧
  (GetStoredCount (Clear s').2).1 = 0.
Proof.
  cbn zeta. unfold Clear, clear, GetStoredCount, size_. cbn [fst snd _storage].
  split_and!; [done| |done..].
  intros T h.
  rewrite Get_unfold, HasType_unfold, Contains_unfold, Remove_unfold.
  cbn [_storage]. rewrite lookup_empty. cbn [found_with_type].
  rewrite (bool_decide_eq_false_2 (is_Some None)) by (by intros [? ?]).
  by case_bool_decide.
Qed.

(** ** Persistence of stored entries *)

(** A call other than [Clear] and other than [Remove<T>(h)] keeps the entry
    that [h] maps to under tag [T]. *)
Lemma exec_keeps_entry c s T h e :
  is_matching_Remove T h c = false →
  is_Clear c = false →
  _storage s !! h = Some e →
  type e = T →
  _storage (exec c s) !! h = Some e.
Proof.
  intros HRem HClr He HT. destruct c as [U p|U k|U k|U k|k| |]; cbn [exec].
  - rewrite Store_unfold. case_bool_decide; [done|].
    destruct (_storage s !! get p) as [second|] eqn:Hit.
    + by case_bool_decide.
    + cbn [snd _storage]. rewrite lookup_insert_ne; [done|]. congruence.
  - by rewrite Get_state.
  - rewrite Remove_unfold. case_bool_decide; [done|].
    destruct (found_with_type U (_storage s !! k)) eqn:Hfound; [|done].
    cbn [snd _storage]. rewrite lookup_delete_ne; [done|]. intros ->.
    apply found_with_type_true in Hfound as (e' & He' & HU).
    cbn [is_matching_Remove] in HRem.
    rewrite (bool_decide_eq_true_2 (h = h)) in HRem by done.
    rewrite bool_decide_eq_true_2 in HRem; [done|]. congruence.
  - by rewrite HasType_state.
  - by rewrite Contains_state.
  - done.
  - done.
Qed.

Lemma run_keeps_entry cs s T h e :
  no_matching_Remove T h cs = true →
  no_Clear cs = true →
  _storage s !! h = Some e →
  type e = T →
  _storage (run cs s) !! h = Some e.
Proof.
  revert s. induction cs as [|c cs IH]; intros s HRem HClr He HT; [done|].
  cbn [no_matching_Remove no_Clear forallb] in HRem, HClr.
  apply andb_true_iff in HRem as [HRem1 HRem2].
  apply andb_true_iff in HClr as [HClr1 HClr2].
  apply negb_true_iff in HRem1, HClr1.
  cbn [run]. apply IH; [done..| |done]. by apply exec_keeps_entry with T.
Qed.

(** C7, as the code has it.  In a reachable state, after [Store<T>(p)]
    succeeds with handle [h], every sequence of calls that contains neither
    [Remove<T>(h)] nor [Clear] ends in a state where [Get<T>(h)] returns a
    non-null shared pointer to [p]'s object. *)
Theorem Store_persistence s T p h s1 cs :
  reachable s →
  Store T p s = (h, s1) →
  h ≠ nullptr →
  no_matching_Remove T h cs = true →
  no_Clear cs = true →
  ∃ r, Get T h (run cs s1) = (r, run cs s1) ∧
       get r = get p ∧ operator_bool r = true.
Proof.
  intros Hs HStore Hh HRem HClr.
  destruct (Store_success s T p h s1) as (-> & e & He & HT & Hget);
    [by apply reachable_keys|done..|].
  exists (static_pointer_cast (ptr e)). split_and!.
  - apply Get_mapped; [done| |done]. by apply run_keeps_entry with T.
  - done.
  - unfold operator_bool. cbn [static_pointer_cast get].
    by rewrite Hget, bool_decide_eq_false_2.
Qed.

Lemma Store_persistence_witness :
  reachable with_bus_a ∧
  Store "Room" room_b with_bus_a = (8192%N, with_bus_a_room_b) ∧
  8192%N ≠ nullptr ∧
  no_matching_Remove "Room" 8192%N
    [CallRemove "Bus" 8192%N; CallRemove "Room" 4096%N; CallStore "Bus" room_b_copy;
     CallRemove "Bus" 4096%N; CallGetStoredCount] = true ∧
  no_Clear
    [CallRemove "Bus" 8192%N; CallRemove "Room" 4096%N; CallStore "Bus" room_b_copy;
     CallRemove "Bus" 4096%N; CallGetStoredCount] = true ∧
  ∃ r, Get "Room" 8192%N
         (run [CallRemove "Bus" 8192%N; CallRemove "Room" 4096%N;
               CallStore "Bus" room_b_copy; CallRemove "Bus" 4096%N;
               CallGetStoredCount] with_bus_a_room_b)
       = (r, run [CallRemove "Bus" 8192%N; CallRemove "Room" 4096%N;
                  CallStore "Bus" room_b_copy; CallRemove "Bus" 4096%N;
                  CallGetStoredCount] with_bus_a_room_b)
       ∧ get r = get room_b ∧ operator_bool r = true.
Proof.
  assert (H1 : reachable with_bus_a) by apply reachable_with_bus_a.
  assert (H2 : Store "Room" room_b with_bus_a = (8192%N, with_bus_a_room_b))
    by reflexivity.
  assert (H3 : 8192%N ≠ nullptr) by (unfold nullptr; lia).
  split_and!; [done..|].
  by apply (Store_persistence _ _ _ _ _ _ H1 H2 H3).
Defined.

(** C7 as stated fails: [Clear] is not a [Remove<T>(h)], and after it the
    handle a successful [Store] returned is no longer found. *)
Lemma Store_persistence_counterexample :
  reachable new_manager ∧
  Store "Bus" bus_a new_manager = (4096%N, with_bus_a) ∧
  4096%N ≠ nullptr ∧
  no_matching_Remove "Bus" 4096%N [CallClear] = true ∧
  Get "Bus" 4096%N (run [CallClear] with_bus_a)
    = (null_shared_ptr, run [CallClear] with_bus_a) ∧
  ¬ ∃ r, Get "Bus" 4096%N (run [CallClear] with_bus_a)
           = (r, run [CallClear] with_bus_a)
         ∧ get r = get bus_a ∧ operator_bool r = true.
Proof.
  split_and!; [by exists []|done|done|done|done|].
  intros (r & HGet & _ & Hr).
  assert (r = null_shared_ptr) as -> by (by injection HGet).
  done.
Qed.

(** ** Null inputs *)

(** C8. In every registry state and for every type tag, a null handle is
    not found: [Get] returns the null shared pointer, [Remove], [HasType]
    and [Contains] return false, and each leaves the registry unchanged. *)
Theorem null_handle_not_found s T :
  Get T nullptr s = (null_shared_ptr, s) ∧
  Remove T nullptr s = (false, s) ∧
  HasType T nullptr s = (false, s) ∧
  Contains nullptr s = (false, s).
Proof.
  rewrite Get_unfold, Remove_unfold, HasType_unfold, Contains_unfold.
  by rewrite bool_decide_eq_true_2.
Qed.

(** C9. In every registry state, [Store] of a null shared pointer returns
    the null handle and leaves the registry unchanged. *)
Theorem Store_null s T p :
  operator_bool p = false →
  Store T p s = (nullptr, s).
Proof.
  intros Hp. unfold operator_bool in Hp. apply negb_false_iff in Hp.
  by rewrite Store_unfold, Hp.
Qed.

Lemma Store_null_witness :
  operator_bool null_shared_ptr = false ∧
  Store "Bus" null_shared_ptr with_bus_a = (nullptr, with_bus_a).
Proof.
  assert (H1 : operator_bool null_shared_ptr = false) by reflexivity.
  split; [done|]. exact (Store_null with_bus_a "Bus" null_shared_ptr H1).
Defined.

(** ** Contains *)

(** C10. In a reachable state, [Contains(h)] returns true exactly when [h]
    is a key of the map and never changes the registry; so for a handle
    mapped under tag [T] it returns true while [HasType<U>(h)] returns false
    for every tag [U] other than [T]. *)
Theorem Contains_type_agnostic s h :
  reachable s →
  Contains h s = (bool_decide (is_Some (_storage s !! h)), s) ∧
  (∀ e, _storage s !! h = Some e →
     Contains h s = (true, s) ∧
     HasType (type e) h s = (true, s) ∧
     ∀ U, U ≠ type e → HasType U h s = (false, s)).
Proof.
  intros Hs. rewrite Contains_unfold. split.
  - case_bool_decide as Hnull; [|done]. f_equal. symmetry.
    apply bool_decide_eq_false_2. intros [e He].
    by destruct (reachable_keys s Hs h e He).
  - intros e He. destruct (reachable_keys s Hs h e He) as [Hh _].
    rewrite bool_decide_eq_false_2 by done. split_and!.
    + rewrite bool_decide_eq_true_2; [done|]. by exists e.
    + rewrite HasType_unfold, He. cbn [found_with_type].
      rewrite bool_decide_eq_false_2 by done. by rewrite bool_decide_eq_true_2.
    + intros U HU. rewrite HasType_unfold, He. cbn [found_with_type].
      rewrite bool_decide_eq_false_2 by done.
      by rewrite bool_decide_eq_false_2.
Qed.

Lemma Contains_type_agnostic_witness :
  reachable with_bus_a ∧
  Contains 4096%N with_bus_a = (true, with_bus_a) ∧
  Contains 8192%N with_bus_a = (false, with_bus_a) ∧
  HasType "Room" 4096%N with_bus_a = (false, with_bus_a).
Proof.
  assert (H1 : reachable with_bus_a) by apply reachable_with_bus_a.
  destruct (Contains_type_agnostic with_bus_a 4096%N H1) as [HC Htyped].
  destruct (Contains_type_agnostic with_bus_a 8192%N H1) as [HC' _].
  destruct (Htyped (SharedPtrEntry_ctor "Bus" bus_a)) as (_ & _ & HU);
    [reflexivity|].
  split_and!; [done|exact HC|exact HC'|]. by apply HU.
Defined.

(** * Further properties of the registry *)

(** ** Invariants *)

(** In every state the registry can reach, an entry holds a non-null shared
    pointer, and its key is the non-null address that pointer stores. *)
Theorem entries_hold_live_pointers s k e :
  reachable s →
  _storage s !! k = Some e →
  k ≠ nullptr ∧ operator_bool (ptr e) = true ∧ get (ptr e) = k.
Proof.
  intros Hs He. destruct (reachable_keys s Hs k e He) as [Hk Hget].
  split_and!; [done| |done].
  unfold operator_bool. by rewrite Hget, bool_decide_eq_false_2.
Qed.

Lemma entries_hold_live_pointers_witness :
  reachable with_bus_a_room_b ∧
  _storage with_bus_a_room_b !! 8192%N = Some (SharedPtrEntry_ctor "Room" room_b) ∧
  8192%N ≠ nullptr ∧
  operator_bool (ptr (SharedPtrEntry_ctor "Room" room_b)) = true ∧
  get (ptr (SharedPtrEntry_ctor "Room" room_b)) = 8192%N.
Proof.
  assert (H1 : reachable with_bus_a_room_b)
    by (by exists [CallStore "Bus" bus_a; CallStore "Room" room_b]).
  assert (H2 : _storage with_bus_a_room_b !! 8192%N
               = Some (SharedPtrEntry_ctor "Room" room_b)) by reflexivity.
  split_and!; [done..| | |];
    apply (entries_hold_live_pointers _ _ _ H1 H2).
Defined.

(** Only [Store] creates entries: when a call maps a handle that was not
    mapped before it, the call is a [Store<T>(p)] of a pointer to that
    address, and the new entry holds [p] under tag [T]. *)
Theorem only_Store_creates c s h :
  _storage s !! h = None →
  is_Some (_storage (exec c s) !! h) →
  ∃ T p, c = CallStore T p ∧ get p = h ∧
         _storage (exec c s) !! h = Some (SharedPtrEntry_ctor T p).
Proof.
  intros Hnone [e He]. destruct c as [T p|T k|T k|T k|k| |]; cbn [exec] in *.
  - exists T, p. rewrite Store_unfold in He |- *.
    case_bool_decide; cbn [snd] in *; [congruence|].
    destruct (_storage s !! get p) as [second|] eqn:Hit.
    + case_bool_decide; cbn [snd] in *; congruence.
    + cbn [snd _storage] in *. rewrite lookup_insert in He |- *.
      case_decide; [done|congruence].
  - rewrite Get_state in He. congruence.
  - rewrite Remove_unfold in He. case_bool_decide; cbn [snd] in He; [congruence|].
    destruct (found_with_type T (_storage s !! k)); cbn [snd _storage] in He;
      [|congruence].
    rewrite lookup_delete in He. case_decide; congruence.
  - rewrite HasType_state in He. congruence.
  - rewrite Contains_state in He. congruence.
  - cbn in He. by rewrite lookup_empty in He.
  - cbn in He. congruence.
Qed.

Lemma only_Store_creates_witness :
  _storage with_bus_a !! 8192%N = None ∧
  is_Some (_storage (exec (CallStore "Room" room_b) with_bus_a) !! 8192%N) ∧
  ∃ T p, CallStore "Room" room_b = CallStore T p ∧ get p = 8192%N ∧
         _storage (exec (CallStore "Room" room_b) with_bus_a) !! 8192%N
         = Some (SharedPtrEntry_ctor T p).
Proof.
  assert (H1 : _storage with_bus_a !! 8192%N = None) by reflexivity.
  assert (H2 : is_Some (_storage (exec (CallStore "Room" room_b) with_bus_a)
                          !! 8192%N))
    by (by exists (SharedPtrEntry_ctor "Room" room_b)).
  split_and!; [done..|].
  exact (only_Store_creates _ _ _ H1 H2).
Defined.

(** No call overwrites an entry: a handle mapped before and after a call
    maps to the same entry, with the tag and the shared pointer (control
    block included) it had.  A [Store] of another shared pointer to a mapped
    address is therefore not retained. *)
Theorem entry_never_overwritten c s h e e' :
  _storage s !! h = Some e →
  _storage (exec c s) !! h = Some e' →
  e' = e.
Proof.
  intros He He'. destruct c as [T p|T k|T k|T k|k| |]; cbn [exec] in *.
  - rewrite Store_unfold in He'. case_bool_decide; cbn [snd] in *; [congruence|].
    destruct (_storage s !! get p) as [second|] eqn:Hit.
    + case_bool_decide; cbn [snd] in *; congruence.
    + cbn [snd _storage] in *. rewrite lookup_insert_ne in He'; congruence.
  - rewrite Get_state in He'. congruence.
  - rewrite Remove_unfold in He'. case_bool_decide; cbn [snd] in He'; [congruence|].
    destruct (found_with_type T (_storage s !! k)); cbn [snd _storage] in He';
      [|congruence].
    rewrite lookup_delete in He'. case_decide; congruence.
  - rewrite HasType_state in He'. congruence.
  - rewrite Contains_state in He'. congruence.
  - cbn in He'. by rewrite lookup_empty in He'.
  - cbn in He'. congruence.
Qed.

Lemma entry_never_overwritten_witness :
  _storage with_bus_a !! 4096%N = Some (SharedPtrEntry_ctor "Bus" bus_a) ∧
  _storage (exec (CallStore "Bus" {| get := 4096; ctrl := 7 |}) with_bus_a) !! 4096%N
    = Some (SharedPtrEntry_ctor "Bus" bus_a) ∧
  SharedPtrEntry_ctor "Bus" bus_a = SharedPtrEntry_ctor "Bus" bus_a.
Proof.
  assert (H1 : _storage with_bus_a !! 4096%N
               = Some (SharedPtrEntry_ctor "Bus" bus_a)) by reflexivity.
  assert (H2 : _storage (exec (CallStore "Bus" {| get := 4096; ctrl := 7 |})
                           with_bus_a) !! 4096%N
               = Some (SharedPtrEntry_ctor "Bus" bus_a)) by reflexivity.
  split_and!; [done..|].
  exact (entry_never_overwritten _ _ _ _ _ H1 H2).
Defined.

(** A sequence of [Get], [HasType], [Contains] and [GetStoredCount] calls
    leaves the registry as it was. *)
Theorem read_only_calls_keep_registry cs s :
  forallb is_read_only cs = true →
  run cs s = s.
Proof.
  revert s. induction cs as [|c cs IH]; intros s Hcs; [done|].
  cbn [forallb] in Hcs. apply andb_true_iff in Hcs as [Hc Hcs].
  cbn [run]. rewrite <- (IH s Hcs) at 2. f_equal.
  destruct c; cbn [exec]; try done.
  - apply Get_state.
  - apply HasType_state.
  - apply Contains_state.
Qed.

Lemma read_only_calls_keep_registry_witness :
  forallb is_read_only
    [CallGet "Bus" 4096%N; CallGet "Room" 4096%N; CallHasType "Bus" 8192%N;
     CallContains 4096%N; CallGetStoredCount; CallGet "Bus" nullptr] = true ∧
  run [CallGet "Bus" 4096%N; CallGet "Room" 4096%N; CallHasType "Bus" 8192%N;
       CallContains 4096%N; CallGetStoredCount; CallGet "Bus" nullptr] with_bus_a
  = with_bus_a.
Proof.
  split; [reflexivity|].
  by apply (read_only_calls_keep_registry _ with_bus_a).
Defined.

(** ** Entry counts *)

(** [Store] adds exactly one entry when its pointer is non-null and the
    address is not mapped yet, and none otherwise. *)
Theorem Store_count T p s :
  (GetStoredCount (Store T p s).2).1 =
  (GetStoredCount s).1 +
  (if operator_bool p && bool_decide (_storage s !! get p = None) then 1 else 0).
Proof.
  rewrite Store_unfold. unfold GetStoredCount, size_, operator_bool. cbn [fst].
  case_bool_decide as Hnull; cbn [negb andb snd]; [lia|].
  destruct (_storage s !! get p) as [second|] eqn:Hit.
  - rewrite (bool_decide_eq_false_2 (Some second = None)) by done.
    case_bool_decide; cbn [snd]; lia.
  - rewrite (bool_decide_eq_true_2 (None = None)) by done. cbn [snd _storage].
    rewrite map_size_insert_None by done. lia.
Qed.

(** [Remove] takes exactly one entry away when it returns true, and none
    when it returns false. *)
Theorem Remove_count T h s :
  (GetStoredCount s).1 =
  (GetStoredCount (Remove T h s).2).1 + (if (Remove T h s).1 then 1 else 0).
Proof.
  rewrite Remove_unfold. unfold GetStoredCount, size_. cbn [fst].
  case_bool_decide as Hnull; cbn [fst snd]; [lia|].
  destruct (found_with_type T (_storage s !! h)) eqn:Hfound; cbn [fst snd]; [|lia].
  apply found_with_type_true in Hfound as (e & He & _). cbn [_storage].
  rewrite map_size_delete, He.
  assert (size (_storage s) ≠ 0); [|lia].
  apply map_size_ne_0_lookup_2 with h. by exists e.
Qed.

(** ** Re-registration and independent handles *)

(** After a successful [Remove<T>(h)] the address is free again: a [Store]
    of any non-null pointer to that address, under any tag [U], succeeds
    with the same handle value, and [Get<U>(h)] then returns the newly
    stored pointer.  A handle kept from before the [Remove] resolves to the
    new object. *)
Theorem Remove_then_Store_reuses_handle s T U h p :
  (Remove T h s).1 = true →
  get p = h →
  let s1 := (Remove T h s).2 in
  let s2 := (Store U p s1).2 in
  Store U p s1 = (h, s2) ∧
  _storage s2 !! h = Some (SharedPtrEntry_ctor U p) ∧
  Get U h s2 = (static_pointer_cast p, s2) ∧
  (U ≠ T → Get T h s2 = (null_shared_ptr, s2)).
Proof.
  intros HRem Hp. cbn zeta. rewrite Remove_unfold in HRem |- *.
  case_bool_decide as Hnull; cbn [fst snd] in *; [done|].
  destruct (found_with_type T (_storage s !! h)); cbn [fst snd] in *; [|done].
  rewrite Store_unfold. cbn [_storage]. rewrite Hp, lookup_delete_eq.
  rewrite bool_decide_eq_false_2 by done. cbn [snd _storage].
  split_and!; [done| | |].
  - by rewrite lookup_insert_eq.
  - refine (Get_mapped _ U h (SharedPtrEntry_ctor U p) Hnull _ eq_refl).
    cbn [_storage]. by rewrite lookup_insert_eq.
  - intros HU. rewrite Get_unfold. cbn [_storage]. rewrite lookup_insert_eq.
    rewrite bool_decide_eq_false_2 by done. cbn [SharedPtrEntry_ctor type].
    by rewrite bool_decide_eq_false_2.
Qed.

Lemma Remove_then_Store_reuses_handle_witness :
  (Remove "Bus" 4096%N with_bus_a).1 = true ∧
  get {| get := 4096; ctrl := 9 |} = 4096%N ∧
  Get "Room" 4096%N
    (Store "Room" {| get := 4096; ctrl := 9 |} (Remove "Bus" 4096%N with_bus_a).2).2
  = ({| get := 4096; ctrl := 9 |},
     (Store "Room" {| get := 4096; ctrl := 9 |} (Remove "Bus" 4096%N with_bus_a).2).2) ∧
  Get "Bus" 4096%N
    (Store "Room" {| get := 4096; ctrl := 9 |} (Remove "Bus" 4096%N with_bus_a).2).2
  = (null_shared_ptr,
     (Store "Room" {| get := 4096; ctrl := 9 |} (Remove "Bus" 4096%N with_bus_a).2).2).
Proof.
  assert (H1 : (Remove "Bus" 4096%N with_bus_a).1 = true) by reflexivity.
  assert (H2 : get {| get := 4096; ctrl := 9 |} = 4096%N) by reflexivity.
  destruct (Remove_then_Store_reuses_handle with_bus_a "Bus" "Room" _ _ H1 H2)
    as (_ & _ & HGet & HOld).
  split_and!; [done|done|exact HGet|]. by apply HOld.
Defined.

Lemma Store_other_lookup T p s k :
  k ≠ get p → _storage (Store T p s).2 !! k = _storage s !! k.
Proof.
  intros Hk. rewrite Store_unfold. case_bool_decide; [done|].
  destruct (_storage s !! get p) as [second|]; [by case_bool_decide|].
  cbn [snd _storage]. by rewrite lookup_insert_ne.
Qed.

Lemma Remove_other_lookup T h s k :
  k ≠ h → _storage (Remove T h s).2 !! k = _storage s !! k.
Proof.
  intros Hk. rewrite Remove_unfold. case_bool_decide; [done|].
  destruct (found_with_type T (_storage s !! h)); [|done].
  cbn [snd _storage]. by rewrite lookup_delete_ne.
Qed.

(** Calls on different addresses do not interfere: a [Store] and a
    [Remove] on different addresses return the same values and lead to the
    same registry in either order. *)
Theorem Store_Remove_commute s T p U h :
  get p ≠ h →
  (Store T p (Remove U h s).2).1 = (Store T p s).1 ∧
  (Remove U h (Store T p s).2).1 = (Remove U h s).1 ∧
  (Store T p (Remove U h s).2).2 = (Remove U h (Store T p s).2).2.
Proof.
  intros Hne.
  rewrite (Store_unfold T p (Remove U h s).2), (Remove_unfold U h (Store T p s).2).
  rewrite Remove_other_lookup, Store_other_lookup by done.
  rewrite (Store_unfold T p s), (Remove_unfold U h s).
  case_bool_decide as Hp; case_bool_decide as Hh; cbn [fst snd];
    [done|by destruct (found_with_type U (_storage s !! h))| |].
  - destruct (_storage s !! get p) as [second|]; [by case_bool_decide|done].
  - destruct (_storage s !! get p) as [second|],
      (found_with_type U (_storage s !! h)); cbn [fst snd _storage];
      try done; try (by case_bool_decide).
    split_and!; [done..|]. f_equal. by rewrite delete_insert_ne.
Qed.

Lemma Store_Remove_commute_witness :
  get room_b ≠ 4096%N ∧
  (Store "Room" room_b (Remove "Bus" 4096%N with_bus_a).2).2
  = (Remove "Bus" 4096%N (Store "Room" room_b with_bus_a).2).2.
Proof.
  assert (H1 : get room_b ≠ 4096%N) by (cbn; lia).
  split; [done|].
  apply (Store_Remove_commute with_bus_a "Room" room_b "Bus" 4096%N H1).
Defined.

(** * The singleton and the entry points *)

(** ** Running computations on the process *)

Lemma P_bind_Some {A B : Type} (m : P A) (f : A → P B) g a g' :
  m g = Some (a, g') → (m ≫= f) g = f a g'.
Proof. intros Hm. unfold mbind, P_bind. by rewrite Hm. Qed.

Lemma process_start_ok : process_ok process_start.
Proof. by split. Qed.

Lemma reachable_new_manager : reachable new_manager.
Proof. by exists []. Qed.

Lemma registry_of_reachable g : process_ok g → reachable (registry_of g).
Proof.
  intros [_ Hflag]. unfold registry_of.
  destruct (_init_flag g); [|apply reachable_new_manager].
  by destruct Hflag as (s & -> & Hs).
Qed.

Lemma with_registry_ok s g :
  process_ok g → reachable s → process_ok (with_registry s g).
Proof. intros _ Hs. split; [done|]. intros _. by exists s. Qed.

Lemma registry_of_with_registry s g : registry_of (with_registry s g) = s.
Proof. done. Qed.

Lemma with_engine_call_ok c g : process_ok g → process_ok (with_engine_call c g).
Proof. by intros [??]. Qed.

Lemma registry_of_with_engine_call c g :
  registry_of (with_engine_call c g) = registry_of g.
Proof. done. Qed.

(** Once the singleton is constructed, reaching it again changes nothing. *)
Lemma with_registry_id g :
  process_ok g → _init_flag g = true → with_registry (registry_of g) g = g.
Proof.
  intros [_ Hflag] Hset. destruct (Hflag Hset) as (s & Hs & _).
  unfold with_registry, registry_of. rewrite Hset, Hs.
  destruct g; simpl in *. by subst.
Qed.

Lemma Instance_run g :
  process_ok g →
  Instance g = Some (registry_of g, with_registry (registry_of g) g).
Proof.
  intros Hg. destruct (_init_flag g) eqn:Hset.
  - rewrite with_registry_id by done. destruct Hg as [_ Hflag].
    destruct (Hflag Hset) as (s & Hs & _).
    unfold Instance, registry_of. by rewrite Hset, Hs.
  - unfold Instance, registry_of, with_registry. by rewrite Hset.
Qed.

Lemma on_Instance_run {A : Type} (f : M A) g :
  process_ok g →
  on_Instance f g
  = Some ((f (registry_of g)).1, with_registry (f (registry_of g)).2 g).
Proof.
  intros Hg. unfold on_Instance.
  rewrite (P_bind_Some _ _ _ _ _ (Instance_run g Hg)).
  by destruct (f (registry_of g)) as [a s'].
Qed.

Lemma engine_run {A : Type} c (r : A) g :
  engine c r g = Some (r, with_engine_call c g).
Proof. done. Qed.

(** ** Every entry point keeps the process well formed *)

Lemma safe_ret {A : Type} (a : A) : safe (mret a : P A).
Proof. intros g Hg. by exists a, g. Qed.

Lemma safe_bind {A B : Type} (m : P A) (f : A → P B) :
  safe m → (∀ a, safe (f a)) → safe (m ≫= f).
Proof.
  intros Hm Hf g Hg. destruct (Hm g Hg) as (a & g' & Hrun & Hg').
  rewrite (P_bind_Some _ _ _ _ _ Hrun). by apply Hf.
Qed.

Lemma safe_engine {A : Type} c (r : A) : safe (engine c r).
Proof.
  intros g Hg. exists r, (with_engine_call c g).
  split; [done|]. by apply with_engine_call_ok.
Qed.

Lemma safe_on_Instance {A : Type} (f : M A) :
  (∀ s, reachable s → reachable (f s).2) → safe (on_Instance f).
Proof.
  intros Hf g Hg. eexists _, _. split; [by apply on_Instance_run|].
  apply with_registry_ok; [done|]. by apply Hf, registry_of_reachable.
Qed.

Lemma safe_STORE T p : safe (STORE_SHARED_PTR T p).
Proof. apply safe_on_Instance. intros s. apply (reachable_run [CallStore T p]). Qed.

Lemma safe_GET T h : safe (GET_SHARED_PTR T h).
Proof. apply safe_on_Instance. intros s. apply (reachable_run [CallGet T h]). Qed.

Lemma safe_REMOVE T h : safe (REMOVE_SHARED_PTR T h).
Proof. apply safe_on_Instance. intros s. apply (reachable_run [CallRemove T h]). Qed.

Lemma safe_Clear : safe (on_Instance Clear).
Proof. apply safe_on_Instance. intros s. apply (reachable_run [CallClear]). Qed.

Lemma safe_if {A : Type} (b : bool) (m1 m2 : P A) :
  safe m1 → safe m2 → safe (if b then m1 else m2).
Proof. by destruct b. Qed.

Ltac solve_safe :=
  repeat first
    [ apply safe_ret | apply safe_engine | apply safe_STORE | apply safe_GET
    | apply safe_REMOVE | apply safe_Clear | apply safe_if
    | apply safe_bind; [|intros ?] ].

Lemma safe_am_boot : safe am_boot.
Proof.
  intros g Hg. unfold am_boot, compare_exchange_strong.
  unfold mbind at 1. unfold P_bind.
  case_bool_decide as Hinit; cbn [negb].
  - set (g1 := {| g_initialized := true; _init_flag := _init_flag g;
                  _instance := _instance g; engine_calls := engine_calls g |}).
    assert (Hrun : Instance g1
                   = Some (registry_of g, with_registry (registry_of g) g1)).
    { destruct Hg as [_ Hflag]. unfold Instance, registry_of, with_registry.
      cbn [_init_flag _instance g_initialized engine_calls g1].
      destruct (_init_flag g) eqn:Hset; [|done].
      destruct (Hflag eq_refl) as (s & Hs & _). rewrite Hs.
      cbn [default]. unfold g1. by rewrite Hs. }
    rewrite (P_bind_Some _ _ _ _ _ Hrun).
    eexists tt, _. split; [done|]. split; [done|]. intros _.
    exists (registry_of g). split; [done|]. by apply registry_of_reachable.
  - by exists tt, g.
Qed.

Lemma safe_am_shutdown : safe am_shutdown.
Proof.
  intros g Hg. unfold am_shutdown, compare_exchange_strong.
  unfold mbind at 1. unfold P_bind.
  case_bool_decide as Hinit; cbn [negb].
  - apply safe_Clear. destruct Hg as [_ Hflag]. by split.
  - by exists tt, g.
Qed.

Lemma safe_exec_api c g :
  process_ok g → ∃ g', exec_api c g = Some g' ∧ process_ok g'.
Proof.
  intros Hg.
  assert (Hafter : ∀ A (m : P A), safe m →
            ∃ g', after m g = Some g' ∧ process_ok g').
  { intros A m Hm. destruct (Hm g Hg) as (a & g' & Hrun & Hg').
    exists g'. unfold after. by rewrite Hrun. }
  destruct c; cbn [exec_api]; apply Hafter.
  - apply safe_am_boot.
  - apply safe_am_shutdown.
  - unfold am_is_initialized. apply safe_bind; [|intros; apply safe_ret].
    intros g0 Hg0. by exists (g_initialized g0), g0.
  - unfold am_codec_decoder_create_from_codec. solve_safe.
  - unfold am_codec_decoder_destroy. solve_safe.
  - unfold am_codec_decoder_close. solve_safe.
  - unfold am_codec_decoder_seek. solve_safe.
  - unfold am_codec_encoder_create_from_codec. solve_safe.
  - unfold am_codec_encoder_destroy. solve_safe.
  - unfold am_codec_encoder_close. solve_safe.
  - unfold am_file_close. solve_safe.
  - unfold am_filesystem_open_file. solve_safe.
  - unfold am_environment_set_zone. solve_safe.
  - unfold am_environment_get_zone. solve_safe.
Qed.

Lemma safe_run_api cs g :
  process_ok g → ∃ g', run_api cs g = Some g' ∧ process_ok g'.
Proof.
  revert g. induction cs as [|c cs IH]; intros g Hg; cbn [run_api].
  - by exists g.
  - destruct (safe_exec_api c g Hg) as (g' & -> & Hg'). by apply IH.
Qed.

Lemma reachable_process_ok g : reachable_process g → process_ok g.
Proof.
  intros [cs Hrun].
  destruct (safe_run_api cs process_start process_start_ok) as (g' & Hrun' & Hg').
  congruence.
Qed.

(** ** The singleton *)

(** Whatever entry points are called from process start, in whatever order
    and with whatever the engine returns, none of them dereferences a null
    [_instance]: every call returns. *)
Theorem entry_points_never_dereference_null cs :
  is_Some (run_api cs process_start).
Proof.
  destruct (safe_run_api cs process_start process_start_ok) as (g' & Hrun & _).
  by exists g'.
Qed.

(** In a reachable process, [Instance()] constructs an empty registry on
    its first call and sets [_init_flag]; on every later call it returns the
    registry [_instance] already owns and changes nothing. *)
Theorem Instance_constructs_once g :
  reachable_process g →
  if _init_flag g
  then ∃ s, _instance g = Some s ∧ Instance g = Some (s, g)
  else Instance g
       = Some (new_manager,
               {| g_initialized := g_initialized g; _init_flag := true;
                  _instance := Some new_manager;
                  engine_calls := engine_calls g |}).
Proof.
  intros Hg%reachable_process_ok. destruct (_init_flag g) eqn:Hset.
  - destruct Hg as [_ Hflag]. destruct (Hflag Hset) as (s & Hs & _).
    exists s. split; [done|]. unfold Instance. by rewrite Hset, Hs.
  - unfold Instance. by rewrite Hset.
Qed.

Lemma reachable_process_after cs : reachable_process (process_after cs).
Proof.
  exists cs. unfold process_after.
  by destruct (safe_run_api cs process_start process_start_ok) as (g & -> & _).
Qed.

Lemma Instance_constructs_once_witness :
  reachable_process process_start ∧
  Instance process_start
  = Some (new_manager,
          {| g_initialized := false; _init_flag := true;
             _instance := Some new_manager; engine_calls := [] |}).
Proof.
  assert (H1 : reachable_process process_start) by (by exists []).
  split; [done|]. exact (Instance_constructs_once process_start H1).
Defined.

(** ** Boot and shutdown *)

(** In a reachable process [am_boot] returns with [g_initialized] set and
    leaves the registry's entries and the engine untouched; a second
    [am_boot] changes nothing, and [am_is_initialized] then returns
    [AM_TRUE]. *)
Theorem am_boot_idempotent g :
  reachable_process g →
  ∃ g', am_boot g = Some (tt, g') ∧
        g_initialized g' = true ∧
        registry_of g' = registry_of g ∧
        engine_calls g' = engine_calls g ∧
        am_boot g' = Some (tt, g') ∧
        am_is_initialized g' = Some (AM_TRUE, g').
Proof.
  intros Hg%reachable_process_ok.
  assert (Hbooted : ∀ g0, g_initialized g0 = true →
            am_boot g0 = Some (tt, g0) ∧
            am_is_initialized g0 = Some (AM_TRUE, g0)).
  { intros g0 Hinit. unfold am_boot, am_is_initialized, compare_exchange_strong,
      load, mbind, P_bind. rewrite Hinit.
    by rewrite bool_decide_eq_false_2. }
  destruct (g_initialized g) eqn:Hinit.
  - exists g. destruct (Hbooted g Hinit) as [Hboot Hload]. by split_and!.
  - set (g1 := {| g_initialized := true; _init_flag := _init_flag g;
                  _instance := _instance g; engine_calls := engine_calls g |}).
    assert (Hg1 : process_ok (with_registry (registry_of g) g))
      by (apply with_registry_ok; [done|by apply registry_of_reachable]).
    exists (with_registry (registry_of g) g1).
    destruct (Hbooted (with_registry (registry_of g) g1) eq_refl) as [Hboot Hload].
    split_and!; [|done..].
    unfold am_boot, compare_exchange_strong. unfold mbind at 1. unfold P_bind.
    rewrite Hinit. rewrite bool_decide_eq_true_2 by done. cbn [negb]. fold g1.
    assert (Hrun : Instance g1
                   = Some (registry_of g, with_registry (registry_of g) g1)).
    { destruct Hg as [_ Hflag]. unfold Instance, registry_of, with_registry.
      cbn [_init_flag _instance g_initialized engine_calls g1].
      destruct (_init_flag g) eqn:Hset; [|done].
      destruct (Hflag eq_refl) as (s & Hs & _). rewrite Hs.
      cbn [default]. unfold g1. by rewrite Hs. }
    by rewrite (P_bind_Some _ _ _ _ _ Hrun).
Qed.

Lemma am_boot_idempotent_witness :
  reachable_process (process_after [Api_decoder_create_from_codec 1%N decoder_d]) ∧
  ∃ g', am_boot (process_after [Api_decoder_create_from_codec 1%N decoder_d])
        = Some (tt, g') ∧
        g_initialized g' = true ∧
        registry_of g'
        = registry_of (process_after [Api_decoder_create_from_codec 1%N decoder_d]) ∧
        engine_calls g'
        = engine_calls (process_after [Api_decoder_create_from_codec 1%N decoder_d]) ∧
        am_boot g' = Some (tt, g') ∧
        am_is_initialized g' = Some (AM_TRUE, g').
Proof.
  assert (H1 : reachable_process
                 (process_after [Api_decoder_create_from_codec 1%N decoder_d]))
    by (by exists [Api_decoder_create_from_codec 1%N decoder_d]).
  split; [done|]. exact (am_boot_idempotent _ H1).
Defined.

Lemma am_shutdown_run g :
  process_ok g →
  g_initialized g = true →
  ∃ g', am_shutdown g = Some (tt, g') ∧
        process_ok g' ∧
        g_initialized g' = false ∧
        _init_flag g' = true ∧
        _instance g' = Some new_manager.
Proof.
  intros Hg Hinit.
  set (g1 := {| g_initialized := false; _init_flag := _init_flag g;
                _instance := _instance g; engine_calls := engine_calls g |}).
  assert (Hg1 : process_ok g1) by (destruct Hg as [_ Hflag]; by split).
  exists (with_registry new_manager g1). split_and!; try done.
  - unfold am_shutdown, compare_exchange_strong. unfold mbind at 1. unfold P_bind.
    rewrite Hinit. rewrite bool_decide_eq_true_2 by done. cbn [negb]. fold g1.
    by rewrite (on_Instance_run Clear g1 Hg1).
  - apply with_registry_ok; [done|apply reachable_new_manager].
Qed.

(** In a reachable process with [g_initialized] set, [am_shutdown] clears
    the flag and leaves [_instance] owning an empty registry: every entry,
    and with it the registry's reference to every stored object, is dropped.
    [am_is_initialized] then returns [AM_FALSE] and a second [am_shutdown]
    changes nothing. *)
Theorem am_shutdown_clears_registry g :
  reachable_process g →
  g_initialized g = true →
  ∃ g', am_shutdown g = Some (tt, g') ∧
        g_initialized g' = false ∧
        _instance g' = Some new_manager ∧
        (GetStoredCount (registry_of g')).1 = 0 ∧
        am_is_initialized g' = Some (AM_FALSE, g') ∧
        am_shutdown g' = Some (tt, g').
Proof.
  intros Hg%reachable_process_ok Hinit.
  destruct (am_shutdown_run g Hg Hinit) as (g' & Hrun & _ & Hoff & Hset & Hinst).
  exists g'. split_and!; [done..| | |].
  - unfold registry_of. by rewrite Hset, Hinst.
  - unfold am_is_initialized, load, mbind, P_bind. by rewrite Hoff.
  - unfold am_shutdown, compare_exchange_strong, mbind, P_bind.
    rewrite Hoff. by rewrite bool_decide_eq_false_2.
Qed.

Lemma am_shutdown_clears_registry_witness :
  reachable_process
    (process_after [Api_boot; Api_decoder_create_from_codec 1%N decoder_d]) ∧
  g_initialized
    (process_after [Api_boot; Api_decoder_create_from_codec 1%N decoder_d]) = true ∧
  ∃ g', am_shutdown
          (process_after [Api_boot; Api_decoder_create_from_codec 1%N decoder_d])
        = Some (tt, g') ∧
        g_initialized g' = false ∧
        _instance g' = Some new_manager ∧
        (GetStoredCount (registry_of g')).1 = 0 ∧
        am_is_initialized g' = Some (AM_FALSE, g') ∧
        am_shutdown g' = Some (tt, g').
Proof.
  assert (H1 : reachable_process
                 (process_after [Api_boot; Api_decoder_create_from_codec 1%N decoder_d]))
    by (by exists [Api_boot; Api_decoder_create_from_codec 1%N decoder_d]).
  assert (H2 : g_initialized
                 (process_after [Api_boot; Api_decoder_create_from_codec 1%N decoder_d])
               = true) by reflexivity.
  split_and!; [done..|]. exact (am_shutdown_clears_registry _ H1 H2).
Defined.

(** When [g_initialized] is not set, [am_shutdown] returns at once and
    changes nothing: the entries of a registry used without [am_boot], or
    filled after an earlier [am_shutdown], stay stored. *)
Theorem am_shutdown_not_initialized g :
  g_initialized g = false →
  am_shutdown g = Some (tt, g).
Proof.
  intros Hinit. unfold am_shutdown, compare_exchange_strong, mbind, P_bind.
  rewrite Hinit. by rewrite bool_decide_eq_false_2.
Qed.

Lemma am_shutdown_not_initialized_witness :
  g_initialized (process_after [Api_decoder_create_from_codec 1%N decoder_d]) = false ∧
  am_shutdown (process_after [Api_decoder_create_from_codec 1%N decoder_d])
  = Some (tt, process_after [Api_decoder_create_from_codec 1%N decoder_d]) ∧
  _storage (registry_of (process_after [Api_decoder_create_from_codec 1%N decoder_d]))
    !! 12288%N
  = Some (SharedPtrEntry_ctor "Codec::Decoder" decoder_d).
Proof.
  assert (H1 : g_initialized
                 (process_after [Api_decoder_create_from_codec 1%N decoder_d])
               = false) by reflexivity.
  split_and!; [done| |reflexivity].
  exact (am_shutdown_not_initialized _ H1).
Defined.

(** ** Handles at the entry points *)

Lemma GET_run T h g :
  process_ok g →
  GET_SHARED_PTR T h g
  = Some ((Get T h (registry_of g)).1, with_registry (registry_of g) g).
Proof.
  intros Hg. unfold GET_SHARED_PTR. rewrite on_Instance_run by done.
  by rewrite Get_state.
Qed.

(** A lookup through [GET_SHARED_PTR] that finds nothing, and one that finds
    an object, in a process whose singleton is constructed. *)
Lemma GET_not_found T h g :
  process_ok g → _init_flag g = true →
  operator_bool (Get T h (registry_of g)).1 = false →
  ∃ decoder, GET_SHARED_PTR T h g = Some (decoder, g) ∧
             operator_bool decoder = false.
Proof.
  intros Hg Hset Hnull. exists (Get T h (registry_of g)).1.
  by rewrite GET_run, with_registry_id.
Qed.

Lemma GET_found T h g e :
  process_ok g →
  _storage (registry_of g) !! h = Some e →
  type e = T →
  GET_SHARED_PTR T h g = Some (static_pointer_cast (ptr e), g) ∧
  operator_bool (static_pointer_cast (ptr e)) = true ∧
  get (static_pointer_cast (ptr e)) = h ∧
  _init_flag g = true.
Proof.
  intros Hg He HT.
  assert (Hset : _init_flag g = true).
  { unfold registry_of in He. destruct (_init_flag g); [done|].
    cbn in He. by rewrite lookup_empty in He. }
  destruct (reachable_keys _ (registry_of_reachable g Hg) h e He) as [Hh Hget].
  rewrite GET_run, with_registry_id by done.
  rewrite (Get_mapped _ T h e) by done. split_and!; [done| |done..].
  unfold operator_bool. cbn [static_pointer_cast get].
  by rewrite Hget, bool_decide_eq_false_2.
Qed.

Lemma Get_wrong_type s T h e :
  _storage s !! h = Some e → type e ≠ T →
  operator_bool (Get T h s).1 = false.
Proof.
  intros He HT. rewrite Get_unfold, He.
  case_bool_decide; [done|]. by rewrite bool_decide_eq_false_2.
Qed.

Lemma Get_after_Remove s T h :
  operator_bool (Get T h (Remove T h s).2).1 = false.
Proof.
  rewrite Get_unfold, Remove_unfold. case_bool_decide as Hh; [done|].
  destruct (_storage s !! h) as [second|] eqn:Hit; cbn [found_with_type].
  - case_bool_decide as HT; cbn [snd _storage].
    + by rewrite lookup_delete_eq.
    + rewrite Hit. by rewrite bool_decide_eq_false_2.
  - cbn [snd]. by rewrite Hit.
Qed.

Lemma Remove_after_Remove s T h :
  Remove T h (Remove T h s).2 = (false, (Remove T h s).2).
Proof.
  rewrite (Remove_unfold T h (Remove T h s).2), (Remove_unfold T h s).
  case_bool_decide as Hh; [done|].
  destruct (found_with_type T (_storage s !! h)) eqn:Hfound; cbn [snd _storage].
  - by rewrite lookup_delete_eq.
  - by rewrite Hfound.
Qed.

Lemma am_codec_decoder_close_not_found h r g :
  process_ok g → _init_flag g = true →
  operator_bool (Get "Codec::Decoder" h (registry_of g)).1 = false →
  am_codec_decoder_close h r g = Some (AM_FALSE, g).
Proof.
  intros Hg Hset Hnull. unfold am_codec_decoder_close.
  case_bool_decide; [done|].
  destruct (GET_not_found _ h g Hg Hset Hnull) as (decoder & Hrun & Hdec).
  rewrite (P_bind_Some _ _ _ _ _ Hrun). by rewrite Hdec.
Qed.

Lemma am_codec_decoder_seek_not_found h offset r g :
  process_ok g → _init_flag g = true →
  operator_bool (Get "Codec::Decoder" h (registry_of g)).1 = false →
  am_codec_decoder_seek h offset r g = Some (AM_FALSE, g).
Proof.
  intros Hg Hset Hnull. unfold am_codec_decoder_seek.
  case_bool_decide; [done|].
  destruct (GET_not_found _ h g Hg Hset Hnull) as (decoder & Hrun & Hdec).
  rewrite (P_bind_Some _ _ _ _ _ Hrun). by rewrite Hdec.
Qed.

Lemma am_codec_decoder_close_found h r g e :
  process_ok g →
  _storage (registry_of g) !! h = Some e →
  type e = "Codec::Decoder" →
  am_codec_decoder_close h r g
  = Some (BOOL_TO_AM_BOOL r, with_engine_call (Decoder_Close h) g).
Proof.
  intros Hg He HT. destruct (GET_found _ h g e Hg He HT) as (Hrun & Hbool & Hget & _).
  destruct (reachable_keys _ (registry_of_reachable g Hg) h e He) as [Hh _].
  unfold am_codec_decoder_close. rewrite bool_decide_eq_false_2 by done.
  rewrite (P_bind_Some _ _ _ _ _ Hrun), Hbool. cbn [negb].
  by rewrite (P_bind_Some _ _ _ _ _ (engine_run _ _ _)), Hget.
Qed.

Lemma am_codec_decoder_seek_found h offset r g e :
  process_ok g →
  _storage (registry_of g) !! h = Some e →
  type e = "Codec::Decoder" →
  am_codec_decoder_seek h offset r g
  = Some (BOOL_TO_AM_BOOL r, with_engine_call (Decoder_Seek h offset) g).
Proof.
  intros Hg He HT. destruct (GET_found _ h g e Hg He HT) as (Hrun & Hbool & Hget & _).
  destruct (reachable_keys _ (registry_of_reachable g Hg) h e He) as [Hh _].
  unfold am_codec_decoder_seek. rewrite bool_decide_eq_false_2 by done.
  rewrite (P_bind_Some _ _ _ _ _ Hrun), Hbool. cbn [negb].
  by rewrite (P_bind_Some _ _ _ _ _ (engine_run _ _ _)), Hget.
Qed.

Lemma STORE_run T p g :
  process_ok g →
  STORE_SHARED_PTR T p g
  = Some ((Store T p (registry_of g)).1,
          with_registry (Store T p (registry_of g)).2 g) ∧
  process_ok (with_registry (Store T p (registry_of g)).2 g).
Proof.
  intros Hg. split; [by apply on_Instance_run|].
  apply with_registry_ok; [done|].
  apply (reachable_run [CallStore T p]). by apply registry_of_reachable.
Qed.

(** A non-null handle that [STORE_SHARED_PTR] returned is mapped under the
    stored type, and is the stored pointer's address. *)
Lemma STORE_success T p g h g1 :
  process_ok g →
  STORE_SHARED_PTR T p g = Some (h, g1) →
  h ≠ nullptr →
  process_ok g1 ∧ h = get p ∧ engine_calls g1 = engine_calls g ∧
  registry_of g1 = (Store T p (registry_of g)).2 ∧
  ∃ e, _storage (registry_of g1) !! h = Some e ∧ type e = T.
Proof.
  intros Hg Hrun Hh. destruct (STORE_run T p g Hg) as [Hrun' Hg1].
  rewrite Hrun' in Hrun. injection Hrun as <- <-.
  destruct (Store_success (registry_of g) T p _ _
              (reachable_keys _ (registry_of_reachable g Hg))
              (surjective_pairing _) Hh) as (Hp & e & He & HT & _).
  split_and!; [done..|]. by exists e.
Qed.

(** A decoder handle that [am_codec_decoder_create_from_codec] returned is
    the address of the decoder the engine created, and
    [am_codec_decoder_close] and [am_codec_decoder_seek] on it call that
    decoder and hand back what it answers. *)
Theorem decoder_create_then_use g codec d h g1 :
  reachable_process g →
  am_codec_decoder_create_from_codec codec d g = Some (h, g1) →
  h ≠ nullptr →
  h = get d ∧
  (∀ r, am_codec_decoder_close h r g1
        = Some (BOOL_TO_AM_BOOL r, with_engine_call (Decoder_Close h) g1)) ∧
  (∀ offset r, am_codec_decoder_seek h offset r g1
        = Some (BOOL_TO_AM_BOOL r, with_engine_call (Decoder_Seek h offset) g1)).
Proof.
  intros Hg%reachable_process_ok Hrun Hh.
  unfold am_codec_decoder_create_from_codec in Hrun.
  case_bool_decide as Hcodec; [by injection Hrun as <- _|].
  rewrite (P_bind_Some _ _ _ _ _ (engine_run _ _ _)) in Hrun.
  destruct (operator_bool d); cbn [negb] in Hrun; [|by injection Hrun as <- _].
  destruct (STORE_success _ _ _ _ _ (with_engine_call_ok _ g Hg) Hrun Hh)
    as (Hg1 & Hd & _ & _ & e & He & HT).
  split_and!; [done| |].
  - intros r. by apply am_codec_decoder_close_found with e.
  - intros offset r. by apply am_codec_decoder_seek_found with e.
Qed.

Lemma decoder_create_then_use_witness :
  reachable_process (process_after [Api_boot]) ∧
  am_codec_decoder_create_from_codec 1%N decoder_d (process_after [Api_boot])
  = Some (12288%N,
          process_after [Api_boot; Api_decoder_create_from_codec 1%N decoder_d]) ∧
  12288%N ≠ nullptr ∧
  am_codec_decoder_close 12288%N true
    (process_after [Api_boot; Api_decoder_create_from_codec 1%N decoder_d])
  = Some (AM_TRUE,
          with_engine_call (Decoder_Close 12288%N)
            (process_after [Api_boot; Api_decoder_create_from_codec 1%N decoder_d])).
Proof.
  assert (H1 : reachable_process (process_after [Api_boot]))
    by (by exists [Api_boot]).
  assert (H2 : am_codec_decoder_create_from_codec 1%N decoder_d
                 (process_after [Api_boot])
               = Some (12288%N,
                       process_after
                         [Api_boot; Api_decoder_create_from_codec 1%N decoder_d]))
    by reflexivity.
  assert (H3 : 12288%N ≠ nullptr) by (unfold nullptr; lia).
  destruct (decoder_create_then_use _ _ _ _ _ H1 H2 H3) as (_ & HClose & _).
  split_and!; [done..|]. exact (HClose true).
Defined.

(** After [am_codec_decoder_destroy] on a handle, [am_codec_decoder_close]
    and [am_codec_decoder_seek] on that handle return [AM_FALSE] and a
    second [am_codec_decoder_destroy] returns, all without calling the
    engine or changing the process. *)
Theorem decoder_destroy_then_use g h g1 :
  reachable_process g →
  am_codec_decoder_destroy h g = Some (tt, g1) →
  (∀ r, am_codec_decoder_close h r g1 = Some (AM_FALSE, g1)) ∧
  (∀ offset r, am_codec_decoder_seek h offset r g1 = Some (AM_FALSE, g1)) ∧
  am_codec_decoder_destroy h g1 = Some (tt, g1).
Proof.
  intros Hg%reachable_process_ok Hrun.
  unfold am_codec_decoder_destroy in Hrun |- *.
  unfold am_codec_decoder_close, am_codec_decoder_seek.
  case_bool_decide as Hh; [by injection Hrun as <-|].
  unfold REMOVE_SHARED_PTR in Hrun.
  rewrite (P_bind_Some _ _ _ _ _ (on_Instance_run _ g Hg)) in Hrun.
  injection Hrun as <-.
  set (s1 := (Remove "Codec::Decoder" h (registry_of g)).2).
  assert (Hg1 : process_ok (with_registry s1 g)).
  { apply with_registry_ok; [done|].
    apply (reachable_run [CallRemove "Codec::Decoder" h]).
    by apply registry_of_reachable. }
  assert (Hnull : operator_bool
            (Get "Codec::Decoder" h (registry_of (with_registry s1 g))).1 = false)
    by apply Get_after_Remove.
  destruct (GET_not_found _ h _ Hg1 eq_refl Hnull) as (decoder & HGET & Hdec).
  split_and!.
  - intros r. rewrite (P_bind_Some _ _ _ _ _ HGET). by rewrite Hdec.
  - intros offset r. rewrite (P_bind_Some _ _ _ _ _ HGET). by rewrite Hdec.
  - unfold REMOVE_SHARED_PTR.
    rewrite (P_bind_Some _ _ _ _ _ (on_Instance_run _ _ Hg1)).
    change (registry_of (with_registry s1 g)) with s1. unfold s1.
    by rewrite Remove_after_Remove.
Qed.

Lemma decoder_destroy_then_use_witness :
  reachable_process
    (process_after [Api_boot; Api_decoder_create_from_codec 1%N decoder_d]) ∧
  am_codec_decoder_destroy 12288%N
    (process_after [Api_boot; Api_decoder_create_from_codec 1%N decoder_d])
  = Some (tt, process_after [Api_boot; Api_decoder_create_from_codec 1%N decoder_d;
                             Api_decoder_destroy 12288%N]) ∧
  am_codec_decoder_close 12288%N true
    (process_after [Api_boot; Api_decoder_create_from_codec 1%N decoder_d;
                    Api_decoder_destroy 12288%N])
  = Some (AM_FALSE,
          process_after [Api_boot; Api_decoder_create_from_codec 1%N decoder_d;
                         Api_decoder_destroy 12288%N]).
Proof.
  assert (H1 : reachable_process
                 (process_after [Api_boot; Api_decoder_create_from_codec 1%N decoder_d]))
    by (by exists [Api_boot; Api_decoder_create_from_codec 1%N decoder_d]).
  assert (H2 : am_codec_decoder_destroy 12288%N
                 (process_after [Api_boot; Api_decoder_create_from_codec 1%N decoder_d])
               = Some (tt, process_after
                             [Api_boot; Api_decoder_create_from_codec 1%N decoder_d;
                              Api_decoder_destroy 12288%N])) by reflexivity.
  destruct (decoder_destroy_then_use _ _ _ H1 H2) as (HClose & _ & _).
  split_and!; [done..|]. exact (HClose true).
Defined.

Lemma REMOVE_wrong_type T h g e :
  process_ok g →
  _storage (registry_of g) !! h = Some e →
  type e ≠ T →
  REMOVE_SHARED_PTR T h g = Some (false, g).
Proof.
  intros Hg He HT.
  assert (Hset : _init_flag g = true).
  { unfold registry_of in He. destruct (_init_flag g); [done|].
    cbn in He. by rewrite lookup_empty in He. }
  unfold REMOVE_SHARED_PTR. rewrite on_Instance_run by done.
  assert (Remove T h (registry_of g) = (false, registry_of g)) as ->.
  { rewrite Remove_unfold, He. cbn [found_with_type].
    case_bool_decide; [done|]. by rewrite bool_decide_eq_false_2. }
  cbn [fst snd]. by rewrite with_registry_id.
Qed.

(** The decoder entry points reject a handle registered under another type
    (an encoder, a file, a zone): close and seek return [AM_FALSE], destroy
    returns, and none of them calls the engine or changes the process, so
    the object stays registered. *)
Theorem decoder_entry_points_reject_other_types g h e :
  reachable_process g →
  _storage (registry_of g) !! h = Some e →
  type e ≠ "Codec::Decoder" →
  (∀ r, am_codec_decoder_close h r g = Some (AM_FALSE, g)) ∧
  (∀ offset r, am_codec_decoder_seek h offset r g = Some (AM_FALSE, g)) ∧
  am_codec_decoder_destroy h g = Some (tt, g).
Proof.
  intros Hg%reachable_process_ok He HT.
  assert (Hset : _init_flag g = true).
  { unfold registry_of in He. destruct (_init_flag g); [done|].
    cbn in He. by rewrite lookup_empty in He. }
  pose proof (Get_wrong_type _ _ _ _ He HT) as Hnull.
  split_and!.
  - intros r. by apply am_codec_decoder_close_not_found.
  - intros offset r. by apply am_codec_decoder_seek_not_found.
  - unfold am_codec_decoder_destroy. case_bool_decide; [done|].
    by rewrite (P_bind_Some _ _ _ _ _ (REMOVE_wrong_type _ _ _ _ Hg He HT)).
Qed.

Lemma decoder_entry_points_reject_other_types_witness :
  reachable_process (process_after [Api_encoder_create_from_codec 1%N encoder_e]) ∧
  _storage (registry_of (process_after [Api_encoder_create_from_codec 1%N encoder_e]))
    !! 16384%N
  = Some (SharedPtrEntry_ctor "Codec::Encoder" encoder_e) ∧
  type (SharedPtrEntry_ctor "Codec::Encoder" encoder_e) ≠ "Codec::Decoder" ∧
  am_codec_decoder_close 16384%N true
    (process_after [Api_encoder_create_from_codec 1%N encoder_e])
  = Some (AM_FALSE, process_after [Api_encoder_create_from_codec 1%N encoder_e]) ∧
  am_codec_decoder_destroy 16384%N
    (process_after [Api_encoder_create_from_codec 1%N encoder_e])
  = Some (tt, process_after [Api_encoder_create_from_codec 1%N encoder_e]).
Proof.
  assert (H1 : reachable_process
                 (process_after [Api_encoder_create_from_codec 1%N encoder_e]))
    by (by exists [Api_encoder_create_from_codec 1%N encoder_e]).
  assert (H2 : _storage (registry_of
                   (process_after [Api_encoder_create_from_codec 1%N encoder_e]))
                 !! 16384%N
               = Some (SharedPtrEntry_ctor "Codec::Encoder" encoder_e))
    by reflexivity.
  assert (H3 : type (SharedPtrEntry_ctor "Codec::Encoder" encoder_e)
               ≠ "Codec::Decoder") by done.
  destruct (decoder_entry_points_reject_other_types _ _ _ H1 H2 H3)
    as (HClose & _ & HDestroy).
  split_and!; [done..|exact (HClose true)|exact HDestroy].
Defined.

(** ** File handles *)

Lemma am_file_close_not_found f g :
  process_ok g → _init_flag g = true →
  operator_bool (Get "File" (file_handle f) (registry_of g)).1 = false →
  am_file_close f g = Some (tt, g).
Proof.
  intros Hg Hset Hnull.
  destruct (GET_not_found _ _ g Hg Hset Hnull) as (file_ptr & Hrun & Hptr).
  unfold am_file_close. rewrite (P_bind_Some _ _ _ _ _ Hrun). by rewrite Hptr.
Qed.

Lemma am_file_close_found f g e :
  process_ok g →
  _storage (registry_of g) !! file_handle f = Some e →
  type e = "File" →
  (Remove "File" (file_handle f) (registry_of g)).2
  = {| _storage := delete (file_handle f) (_storage (registry_of g)) |} ∧
  am_file_close f g
  = Some (tt, with_registry
                {| _storage := delete (file_handle f) (_storage (registry_of g)) |}
                (with_engine_call (File_Close (file_handle f)) g)).
Proof.
  intros Hg He HT. set (h := file_handle f) in *.
  destruct (GET_found _ h g e Hg He HT) as (Hrun & Hbool & Hget & Hset).
  destruct (reachable_keys _ (registry_of_reachable g Hg) h e He) as [Hh _].
  assert (HRemove : Remove "File" h (registry_of g)
                    = (true, {| _storage := delete h (_storage (registry_of g)) |})).
  { rewrite Remove_unfold, He. cbn [found_with_type].
    rewrite bool_decide_eq_false_2 by done. by rewrite bool_decide_eq_true_2. }
  split; [by rewrite HRemove|].
  unfold am_file_close. fold h.
  rewrite (P_bind_Some _ _ _ _ _ Hrun), Hbool, Hget.
  rewrite (P_bind_Some _ _ _ _ _ (engine_run _ _ _)).
  unfold REMOVE_SHARED_PTR.
  rewrite (P_bind_Some _ _ _ _ _
             (on_Instance_run _ _ (with_engine_call_ok (File_Close h) g Hg))).
  change (registry_of (with_engine_call (File_Close h) g)) with (registry_of g).
  by rewrite HRemove.
Qed.

(** [am_file_close] on a handle registered as a file calls [File::Close]
    on it once and erases its entry; on any other handle it calls nothing
    and keeps the registry.  Either way a second [am_file_close] on the same
    handle does nothing: the file is not closed twice. *)
Theorem am_file_close_twice g f :
  reachable_process g →
  ∃ g1, am_file_close f g = Some (tt, g1) ∧
        (if found_with_type "File" (_storage (registry_of g) !! file_handle f)
         then engine_calls g1 = engine_calls g ++ [File_Close (file_handle f)] ∧
              _storage (registry_of g1)
              = delete (file_handle f) (_storage (registry_of g))
         else engine_calls g1 = engine_calls g ∧
              registry_of g1 = registry_of g) ∧
        am_file_close f g1 = Some (tt, g1).
Proof.
  intros Hg%reachable_process_ok. set (h := file_handle f).
  destruct (found_with_type "File" (_storage (registry_of g) !! h)) eqn:Hfound.
  - pose proof Hfound as (e & He & HT)%found_with_type_true.
    destruct (am_file_close_found f g e Hg He HT) as [Hs1 Hrun]. fold h in Hs1, Hrun.
    set (s1 := {| _storage := delete h (_storage (registry_of g)) |}) in *.
    set (g0 := with_engine_call (File_Close h) g) in *.
    assert (Hg1 : process_ok (with_registry s1 g0)).
    { apply with_registry_ok; [by apply with_engine_call_ok|]. rewrite <- Hs1.
      apply (reachable_run [CallRemove "File" h]). by apply registry_of_reachable. }
    exists (with_registry s1 g0). split_and!; [done..|].
    apply am_file_close_not_found; [done..|].
    change (registry_of (with_registry s1 g0)) with s1. rewrite <- Hs1.
    apply Get_after_Remove.
  - assert (Hnull : operator_bool (Get "File" h (registry_of g)).1 = false).
    { rewrite Get_unfold. case_bool_decide; [done|].
      destruct (_storage (registry_of g) !! h) as [second|]; [|done].
      cbn [found_with_type] in Hfound. by rewrite Hfound. }
    exists (with_registry (registry_of g) g).
    assert (Hg1 : process_ok (with_registry (registry_of g) g))
      by (apply with_registry_ok; [done|by apply registry_of_reachable]).
    split_and!; [|done..|by apply am_file_close_not_found].
    unfold am_file_close. fold h. rewrite (P_bind_Some _ _ _ _ _ (GET_run _ _ _ Hg)).
    by rewrite Hnull.
Qed.

Lemma am_file_close_twice_witness :
  reachable_process
    (process_after
       [Api_filesystem_open_file (mk_filesystem_handle am_filesystem_type_disk 7)
          99 0 file_f]) ∧
  ∃ g1, am_file_close (mk_file_handle am_file_type_disk 20480)
          (process_after
             [Api_filesystem_open_file (mk_filesystem_handle am_filesystem_type_disk 7)
                99 0 file_f])
        = Some (tt, g1) ∧
        engine_calls g1 = [FileSystem_OpenFile 7 99 0; File_Close 20480] ∧
        _storage (registry_of g1) !! 20480%N = None ∧
        am_file_close (mk_file_handle am_file_type_disk 20480) g1 = Some (tt, g1).
Proof.
  assert (H1 : reachable_process
                 (process_after
                    [Api_filesystem_open_file
                       (mk_filesystem_handle am_filesystem_type_disk 7) 99 0 file_f]))
    by (by exists [Api_filesystem_open_file
                     (mk_filesystem_handle am_filesystem_type_disk 7) 99 0 file_f]).
  split; [done|].
  destruct (am_file_close_twice _ (mk_file_handle am_file_type_disk 20480) H1)
    as (g1 & Hrun & Hcase & Hagain).
  exists g1. split_and!; [done| | |done].
  - apply Hcase.
  - destruct Hcase as [_ ->]. reflexivity.
Defined.

(** What [am_filesystem_open_file] hands back.  The file type is unknown
    exactly when the engine opened no file; otherwise it is custom for a
    custom filesystem and disk for every other one.  The handle is null
    exactly when the engine opened no file or the file's address is already
    registered under a type other than [File]; a non-null handle is the
    file's address. *)
Theorem am_filesystem_open_file_result g filesystem path mode file :
  reachable_process g →
  ∃ fh g1,
    am_filesystem_open_file filesystem path mode file g = Some (fh, g1) ∧
    (file_type fh = am_file_type_unknown ↔ operator_bool file = false) ∧
    (operator_bool file = true →
       file_type fh
       = if bool_decide (filesystem_type filesystem = am_filesystem_type_custom)
         then am_file_type_custom else am_file_type_disk) ∧
    (file_handle fh = nullptr ↔
       operator_bool file = false ∨
       ∃ e, _storage (registry_of g) !! get file = Some e ∧ type e ≠ "File") ∧
    (file_handle fh ≠ nullptr → file_handle fh = get file).
Proof.
  intros Hg%reachable_process_ok. unfold am_filesystem_open_file.
  rewrite (P_bind_Some _ _ _ _ _ (engine_run _ _ _)).
  set (g0 := with_engine_call _ g).
  assert (Hg0 : process_ok g0) by (by apply with_engine_call_ok).
  destruct (operator_bool file) eqn:Hfile.
  - destruct (STORE_run "File" file g0 Hg0) as [Hrun _].
    rewrite (P_bind_Some _ _ _ _ _ Hrun). eexists _, _. split; [done|].
    cbn [file_type file_handle]. change (registry_of g0) with (registry_of g).
    split_and!.
    + split; [|done]. by case_bool_decide.
    + done.
    + rewrite Store_unfold. unfold operator_bool in Hfile.
      apply negb_true_iff in Hfile. rewrite Hfile.
      apply bool_decide_eq_false_1 in Hfile.
      destruct (_storage (registry_of g) !! get file) as [second|].
      * case_bool_decide as HT; cbn [fst].
        -- split; [done|]. intros [|(e & [= <-] & He)]; done.
        -- split; [|done]. intros _. right. by exists second.
      * cbn [fst]. split; [done|]. by intros [|(e & ? & _)].
    + rewrite Store_unfold. case_bool_decide; [done|].
      destruct (_storage (registry_of g) !! get file) as [second|]; [|done].
      by case_bool_decide.
  - eexists _, _. split; [done|]. cbn [file_type file_handle].
    split_and!; [done|done| |done]. split; [by left|done].
Qed.

Lemma am_filesystem_open_file_result_witness :
  reachable_process (process_after [Api_encoder_create_from_codec 1%N encoder_e]) ∧
  am_filesystem_open_file (mk_filesystem_handle am_filesystem_type_package 7)
    99%N 0%N {| get := 16384; ctrl := 8 |}
    (process_after [Api_encoder_create_from_codec 1%N encoder_e])
  = Some (mk_file_handle am_file_type_disk nullptr,
          with_engine_call (FileSystem_OpenFile 7 99 0)
            (process_after [Api_encoder_create_from_codec 1%N encoder_e])) ∧
  ∃ fh g1,
    am_filesystem_open_file (mk_filesystem_handle am_filesystem_type_package 7)
      99%N 0%N {| get := 16384; ctrl := 8 |}
      (process_after [Api_encoder_create_from_codec 1%N encoder_e])
    = Some (fh, g1) ∧
    (file_handle fh = nullptr ↔
       operator_bool {| get := 16384; ctrl := 8 |} = false ∨
       ∃ e, _storage (registry_of
                        (process_after [Api_encoder_create_from_codec 1%N encoder_e]))
              !! 16384%N = Some e ∧ type e ≠ "File").
Proof.
  assert (H1 : reachable_process
                 (process_after [Api_encoder_create_from_codec 1%N encoder_e]))
    by (by exists [Api_encoder_create_from_codec 1%N encoder_e]).
  split_and!; [done|reflexivity|].
  destruct (am_filesystem_open_file_result _
              (mk_filesystem_handle am_filesystem_type_package 7) 99%N 0%N
              {| get := 16384; ctrl := 8 |} H1)
    as (fh & g1 & Hrun & _ & _ & Hnull & _).
  by exists fh, g1.
Defined.

(** Opening a file whose address is not registered and closing the handle
    that came back brings the registry back to what it was; in between the
    engine is asked to open the file and then to close that same file. *)
Theorem open_file_then_close g filesystem path mode file fh g1 :
  reachable_process g →
  operator_bool file = true →
  _storage (registry_of g) !! get file = None →
  am_filesystem_open_file filesystem path mode file g = Some (fh, g1) →
  file_handle fh = get file ∧
  ∃ g2, am_file_close fh g1 = Some (tt, g2) ∧
        _storage (registry_of g2) = _storage (registry_of g) ∧
        engine_calls g2
        = engine_calls g ++ [FileSystem_OpenFile (filesystem_handle filesystem) path mode;
                             File_Close (get file)].
Proof.
  intros Hreach Hfile Hfresh Hrun.
  pose proof (reachable_process_ok g Hreach) as Hg.
  unfold am_filesystem_open_file in Hrun.
  rewrite (P_bind_Some _ _ _ _ _ (engine_run _ _ _)), Hfile in Hrun.
  set (g0 := with_engine_call _ g) in Hrun.
  assert (Hg0 : process_ok g0) by (by apply with_engine_call_ok).
  destruct (STORE_run "File" file g0 Hg0) as [HSTORE Hg1].
  rewrite (P_bind_Some _ _ _ _ _ HSTORE) in Hrun.
  change (registry_of g0) with (registry_of g) in *.
  assert (HStore : Store "File" file (registry_of g)
                   = (get file,
                      {| _storage := <[get file := SharedPtrEntry_ctor "File" file]>
                                       (_storage (registry_of g)) |})).
  { rewrite Store_unfold, Hfresh. unfold operator_bool in Hfile.
    apply negb_true_iff in Hfile. by rewrite Hfile. }
  rewrite HStore in Hrun, Hg1. cbn [fst snd] in Hrun, Hg1.
  injection Hrun as <- <-. cbn [file_handle]. split; [done|].
  set (s1 := {| _storage := <[get file := SharedPtrEntry_ctor "File" file]>
                             (_storage (registry_of g)) |}) in *.
  set (fh := {| file_type := _; file_handle := get file |}).
  destruct (am_file_close_found fh (with_registry s1 g0)
              (SharedPtrEntry_ctor "File" file) Hg1) as [_ Hclose].
  { change (registry_of (with_registry s1 g0)) with s1.
    cbn [file_handle fh s1 _storage]. by rewrite lookup_insert_eq. }
  { done. }
  eexists. split; [exact Hclose|].
  change (registry_of (with_registry ?s _)) with s.
  cbn [file_handle fh s1 _storage]. split.
  - change (registry_of (with_registry s1 g0)) with s1. unfold s1. cbn [_storage].
    rewrite delete_insert_eq. by apply delete_id.
  - cbn [engine_calls with_registry g0 with_engine_call]. by rewrite <- app_assoc.
Qed.

Lemma open_file_then_close_witness :
  reachable_process (process_after [Api_boot]) ∧
  operator_bool file_f = true ∧
  _storage (registry_of (process_after [Api_boot])) !! get file_f = None ∧
  am_filesystem_open_file (mk_filesystem_handle am_filesystem_type_custom 7)
    99%N 1%N file_f (process_after [Api_boot])
  = Some (mk_file_handle am_file_type_custom 20480,
          process_after
            [Api_boot;
             Api_filesystem_open_file
               (mk_filesystem_handle am_filesystem_type_custom 7) 99 1 file_f]) ∧
  ∃ g2, am_file_close (mk_file_handle am_file_type_custom 20480)
          (process_after
             [Api_boot;
              Api_filesystem_open_file
                (mk_filesystem_handle am_filesystem_type_custom 7) 99 1 file_f])
        = Some (tt, g2) ∧
        _storage (registry_of g2) = _storage (registry_of (process_after [Api_boot])) ∧
        engine_calls g2 = [FileSystem_OpenFile 7 99 1; File_Close 20480].
Proof.
  assert (H1 : reachable_process (process_after [Api_boot]))
    by (by exists [Api_boot]).
  assert (H2 : operator_bool file_f = true) by reflexivity.
  assert (H3 : _storage (registry_of (process_after [Api_boot])) !! get file_f = None)
    by reflexivity.
  assert (H4 : am_filesystem_open_file
                 (mk_filesystem_handle am_filesystem_type_custom 7)
                 99%N 1%N file_f (process_after [Api_boot])
               = Some (mk_file_handle am_file_type_custom 20480,
                       process_after
                         [Api_boot;
                          Api_filesystem_open_file
                            (mk_filesystem_handle am_filesystem_type_custom 7)
                            99 1 file_f])) by reflexivity.
  split_and!; [done..|].
  exact (proj2 (open_file_then_close _ _ _ _ _ _ _ H1 H2 H3 H4)).
Defined.

(** ** Zone handles *)

(** A zone handle that [am_environment_get_zone] returned is the zone's
    address, and [am_environment_set_zone] with that handle passes the
    engine a shared pointer to that zone.  With a handle that is not
    registered as a zone, [am_environment_set_zone] does not call the
    engine. *)
Theorem zone_handle_roundtrip g environment zone h g1 :
  reachable_process g →
  am_environment_get_zone environment zone g = Some (h, g1) →
  h ≠ nullptr →
  h = get zone ∧
  (∃ zone_ptr, get zone_ptr = get zone ∧
     ∀ environment',
       am_environment_set_zone environment' h g1
       = Some (tt, with_engine_call (Environment_SetZone environment' zone_ptr) g1)) ∧
  (∀ environment' h',
     operator_bool (Get "Zone" h' (registry_of g1)).1 = false →
     am_environment_set_zone environment' h' g1 = Some (tt, g1)).
Proof.
  intros Hg%reachable_process_ok Hrun Hh.
  unfold am_environment_get_zone in Hrun.
  rewrite (P_bind_Some _ _ _ _ _ (engine_run _ _ _)) in Hrun.
  destruct (operator_bool zone); [|by injection Hrun as <- _].
  destruct (STORE_success _ _ _ _ _ (with_engine_call_ok _ g Hg) Hrun Hh)
    as (Hg1 & Hzone & _ & _ & e & He & HT).
  destruct (GET_found _ h g1 e Hg1 He HT) as (HGET & Hbool & Hget & Hset).
  split_and!; [done| |].
  - exists (static_pointer_cast (ptr e)). split; [congruence|].
    intros environment'. unfold am_environment_set_zone.
    by rewrite (P_bind_Some _ _ _ _ _ HGET), Hbool.
  - intros environment' h' Hnull.
    destruct (GET_not_found _ h' g1 Hg1 Hset Hnull) as (zone_ptr & HGET' & Hptr).
    unfold am_environment_set_zone.
    by rewrite (P_bind_Some _ _ _ _ _ HGET'), Hptr.
Qed.

Lemma zone_handle_roundtrip_witness :
  reachable_process (process_after [Api_boot]) ∧
  am_environment_get_zone 5%N zone_z (process_after [Api_boot])
  = Some (24576%N, process_after [Api_boot; Api_environment_get_zone 5%N zone_z]) ∧
  24576%N ≠ nullptr ∧
  am_environment_set_zone 6%N 24576%N
    (process_after [Api_boot; Api_environment_get_zone 5%N zone_z])
  = Some (tt, with_engine_call (Environment_SetZone 6%N zone_z)
                (process_after [Api_boot; Api_environment_get_zone 5%N zone_z])) ∧
  am_environment_set_zone 6%N 4096%N
    (process_after [Api_boot; Api_environment_get_zone 5%N zone_z])
  = Some (tt, process_after [Api_boot; Api_environment_get_zone 5%N zone_z]).
Proof.
  assert (H1 : reachable_process (process_after [Api_boot]))
    by (by exists [Api_boot]).
  assert (H2 : am_environment_get_zone 5%N zone_z (process_after [Api_boot])
               = Some (24576%N,
                       process_after [Api_boot; Api_environment_get_zone 5%N zone_z]))
    by reflexivity.
  assert (H3 : 24576%N ≠ nullptr) by (unfold nullptr; lia).
  destruct (zone_handle_roundtrip _ _ _ _ _ H1 H2 H3) as (_ & _ & Hother).
  split_and!; [done..|reflexivity|].
  by apply Hother.
Defined.

(** ** Stale handles after shutdown *)

(** After an [am_shutdown] that found [g_initialized] set, every handle is
    stale: the decoder and encoder entry points return [AM_FALSE], and
    [am_file_close] and [am_environment_set_zone] return, whatever handle
    they are given, without calling the engine or changing the process. *)
Theorem shutdown_invalidates_handles g g' :
  reachable_process g →
  g_initialized g = true →
  am_shutdown g = Some (tt, g') →
  (∀ h r, am_codec_decoder_close h r g' = Some (AM_FALSE, g')) ∧
  (∀ h offset r, am_codec_decoder_seek h offset r g' = Some (AM_FALSE, g')) ∧
  (∀ h r, am_codec_encoder_close h r g' = Some (AM_FALSE, g')) ∧
  (∀ f, am_file_close f g' = Some (tt, g')) ∧
  (∀ environment zone, am_environment_set_zone environment zone g' = Some (tt, g')).
Proof.
  intros Hg%reachable_process_ok Hinit Hrun.
  destruct (am_shutdown_run g Hg Hinit) as (g0 & Hrun0 & Hg' & _ & Hset & Hinst).
  assert (g0 = g') as -> by congruence.
  assert (Hempty : registry_of g' = new_manager).
  { unfold registry_of. by rewrite Hset, Hinst. }
  assert (Hnull : ∀ T h, operator_bool (Get T h (registry_of g')).1 = false).
  { intros T h. rewrite Hempty, Get_unfold. cbn [new_manager _storage].
    rewrite lookup_empty. by case_bool_decide. }
  assert (HGET : ∀ T h, ∃ p, GET_SHARED_PTR T h g' = Some (p, g') ∧
                             operator_bool p = false).
  { intros T h. by apply GET_not_found. }
  split_and!.
  - intros h r. by apply am_codec_decoder_close_not_found.
  - intros h offset r. by apply am_codec_decoder_seek_not_found.
  - intros h r. unfold am_codec_encoder_close. case_bool_decide; [done|].
    destruct (HGET "Codec::Encoder" h) as (p & HGETp & Hp).
    by rewrite (P_bind_Some _ _ _ _ _ HGETp), Hp.
  - intros f. unfold am_file_close.
    destruct (HGET "File" (file_handle f)) as (p & HGETp & Hp).
    by rewrite (P_bind_Some _ _ _ _ _ HGETp), Hp.
  - intros environment zone. unfold am_environment_set_zone.
    destruct (HGET "Zone" zone) as (p & HGETp & Hp).
    by rewrite (P_bind_Some _ _ _ _ _ HGETp), Hp.
Qed.

Lemma shutdown_invalidates_handles_witness :
  reachable_process
    (process_after [Api_boot; Api_decoder_create_from_codec 1%N decoder_d]) ∧
  g_initialized
    (process_after [Api_boot; Api_decoder_create_from_codec 1%N decoder_d]) = true ∧
  am_shutdown (process_after [Api_boot; Api_decoder_create_from_codec 1%N decoder_d])
  = Some (tt, process_after [Api_boot; Api_decoder_create_from_codec 1%N decoder_d;
                             Api_shutdown]) ∧
  am_codec_decoder_close 12288%N true
    (process_after [Api_boot; Api_decoder_create_from_codec 1%N decoder_d;
                    Api_shutdown])
  = Some (AM_FALSE,
          process_after [Api_boot; Api_decoder_create_from_codec 1%N decoder_d;
                         Api_shutdown]).
Proof.
  assert (H1 : reachable_process
                 (process_after [Api_boot; Api_decoder_create_from_codec 1%N decoder_d]))
    by (by exists [Api_boot; Api_decoder_create_from_codec 1%N decoder_d]).
  assert (H2 : g_initialized
                 (process_after [Api_boot; Api_decoder_create_from_codec 1%N decoder_d])
               = true) by reflexivity.
  assert (H3 : am_shutdown
                 (process_after [Api_boot; Api_decoder_create_from_codec 1%N decoder_d])
               = Some (tt, process_after
                             [Api_boot; Api_decoder_create_from_codec 1%N decoder_d;
                              Api_shutdown])) by reflexivity.
  destruct (shutdown_invalidates_handles _ _ H1 H2 H3) as (HClose & _).
  split_and!; [done..|]. exact (HClose 12288%N true).
Defined.

(** ** Encoder handles *)

(** An encoder handle that [am_codec_encoder_create_from_codec] returned is
    the address of the encoder the engine created; [am_codec_encoder_close]
    on it calls that encoder and hands back its answer, and the decoder
    entry points refuse it.  Once [am_codec_encoder_destroy] has run on it,
    [am_codec_encoder_close] returns [AM_FALSE] without calling the
    engine. *)
Theorem encoder_lifecycle g codec enc h g1 :
  reachable_process g →
  am_codec_encoder_create_from_codec codec enc g = Some (h, g1) →
  h ≠ nullptr →
  h = get enc ∧
  (∀ r, am_codec_encoder_close h r g1
        = Some (BOOL_TO_AM_BOOL r, with_engine_call (Encoder_Close h) g1)) ∧
  (∀ r, am_codec_decoder_close h r g1 = Some (AM_FALSE, g1)) ∧
  ∃ g2, am_codec_encoder_destroy h g1 = Some (tt, g2) ∧
        engine_calls g2 = engine_calls g1 ∧
        _storage (registry_of g2) !! h = None ∧
        ∀ r, am_codec_encoder_close h r g2 = Some (AM_FALSE, g2).
Proof.
  intros Hg%reachable_process_ok Hrun Hh.
  unfold am_codec_encoder_create_from_codec in Hrun.
  case_bool_decide as Hcodec; [by injection Hrun as <- _|].
  rewrite (P_bind_Some _ _ _ _ _ (engine_run _ _ _)) in Hrun.
  destruct (operator_bool enc); cbn [negb] in Hrun; [|by injection Hrun as <- _].
  destruct (STORE_success _ _ _ _ _ (with_engine_call_ok _ g Hg) Hrun Hh)
    as (Hg1 & Henc & _ & _ & e & He & HT).
  destruct (GET_found _ h g1 e Hg1 He HT) as (HGET & Hbool & Hget & Hset).
  split_and!; [done| | |].
  - intros r. unfold am_codec_encoder_close. rewrite bool_decide_eq_false_2 by done.
    rewrite (P_bind_Some _ _ _ _ _ HGET), Hbool. cbn [negb].
    by rewrite (P_bind_Some _ _ _ _ _ (engine_run _ _ _)), Hget.
  - intros r. apply am_codec_decoder_close_not_found; [done..|].
    apply Get_wrong_type with e; [done|]. by rewrite HT.
  - set (s2 := (Remove "Codec::Encoder" h (registry_of g1)).2).
    assert (Hg2 : process_ok (with_registry s2 g1)).
    { apply with_registry_ok; [done|].
      apply (reachable_run [CallRemove "Codec::Encoder" h]).
      by apply registry_of_reachable. }
    exists (with_registry s2 g1). split_and!; [|done| |].
    + unfold am_codec_encoder_destroy, REMOVE_SHARED_PTR.
      rewrite bool_decide_eq_false_2 by done.
      by rewrite (P_bind_Some _ _ _ _ _ (on_Instance_run _ g1 Hg1)).
    + change (registry_of (with_registry s2 g1)) with s2. unfold s2.
      rewrite Remove_unfold, He. cbn [found_with_type].
      rewrite bool_decide_eq_false_2 by done.
      rewrite bool_decide_eq_true_2 by done. cbn [snd _storage].
      by rewrite lookup_delete_eq.
    + intros r. unfold am_codec_encoder_close. rewrite bool_decide_eq_false_2 by done.
      assert (Hnull : operator_bool
                (Get "Codec::Encoder" h (registry_of (with_registry s2 g1))).1 = false)
        by apply Get_after_Remove.
      destruct (GET_not_found _ h _ Hg2 eq_refl Hnull) as (p & HGETp & Hp).
      by rewrite (P_bind_Some _ _ _ _ _ HGETp), Hp.
Qed.

Lemma encoder_lifecycle_witness :
  reachable_process (process_after [Api_boot]) ∧
  am_codec_encoder_create_from_codec 1%N encoder_e (process_after [Api_boot])
  = Some (16384%N,
          process_after [Api_boot; Api_encoder_create_from_codec 1%N encoder_e]) ∧
  16384%N ≠ nullptr ∧
  am_codec_encoder_close 16384%N false
    (process_after [Api_boot; Api_encoder_create_from_codec 1%N encoder_e])
  = Some (AM_FALSE,
          with_engine_call (Encoder_Close 16384%N)
            (process_after [Api_boot; Api_encoder_create_from_codec 1%N encoder_e])) ∧
  am_codec_decoder_close 16384%N true
    (process_after [Api_boot; Api_encoder_create_from_codec 1%N encoder_e])
  = Some (AM_FALSE,
          process_after [Api_boot; Api_encoder_create_from_codec 1%N encoder_e]).
Proof.
  assert (H1 : reachable_process (process_after [Api_boot]))
    by (by exists [Api_boot]).
  assert (H2 : am_codec_encoder_create_from_codec 1%N encoder_e
                 (process_after [Api_boot])
               = Some (16384%N,
                       process_after
                         [Api_boot; Api_encoder_create_from_codec 1%N encoder_e]))
    by reflexivity.
  assert (H3 : 16384%N ≠ nullptr) by (unfold nullptr; lia).
  destruct (encoder_lifecycle _ _ _ _ _ H1 H2 H3) as (_ & HClose & HDec & _).
  split_and!; [done..|exact (HClose false)|exact (HDec true)].
Defined.
